(** * mcp-accessibility-bridge: selector synthesis and accessibility-tree assembly

    A shallow embedding of [src/utils/selectorGenerator.ts] and of the tree
    utilities [cdpAXNodeToSummary], [buildTreeIndex], [assembleTree] and
    [pruneToDepth] (imported by the tools from [utils/axTree]), together
    with the root selection of [getAccessibilityTreeHandler].

    Conventions of the embedding.
    - A JavaScript string is a [string]; every test the code performs on a
      character (the two quote characters, digits, hex digits, the letters
      of [mat-] and [ng-]) concerns an ASCII code unit.
    - [Record<string, string>] and [Map<string, CdpAXNode>] are [gmap]s.
    - An optional field is an [option]; [undefined] is [None].
    - A code path that raises a [TypeError] returns [Thrown]. *)

From Stdlib Require Import String Ascii List ZArith Lia Bool.
From stdpp Require Import gmap strings list fin_maps.

Local Open Scope string_scope.

(** ** JavaScript strings *)

Module JsString.

(** The double quote character (code 34) and the one-character strings
    used by the template literals of the source. *)
Definition dquote : ascii := ascii_of_nat 34.
Definition squote : ascii := ascii_of_nat 39.
Definition backslash : ascii := ascii_of_nat 92.

Definition dq : string := String dquote EmptyString.
Definition sq : string := String squote EmptyString.
Definition bs : string := String backslash EmptyString.

(** [if (s)] on a string: the empty string is falsy. *)
Definition truthy (s : string) : bool :=
  match s with
  | EmptyString => false
  | String _ _ => true
  end.

(** [s.replace(/c/g, rep)] for a one-character pattern. *)
Fixpoint replaceAll (c : ascii) (rep : string) (s : string) : string :=
  match s with
  | EmptyString => EmptyString
  | String a rest =>
      if Ascii.eqb a c then rep +:+ replaceAll c rep rest
      else String a (replaceAll c rep rest)
  end.

(** [s.includes(c)] for a single character. *)
Fixpoint contains (c : ascii) (s : string) : bool :=
  match s with
  | EmptyString => false
  | String a rest => Ascii.eqb a c || contains c rest
  end.

(** [parts.join('')]. *)
Definition join (parts : list string) : string :=
  fold_right String.append EmptyString parts.

(** ASCII lower-casing, the instance of [toLowerCase] used to run the
    model on concrete inputs. *)
Definition lowerAscii (c : ascii) : ascii :=
  let n := nat_of_ascii c in
  if (65 <=? n)%nat && (n <=? 90)%nat then ascii_of_nat (n + 32) else c.

Fixpoint asciiToLowerCase (s : string) : string :=
  match s with
  | EmptyString => EmptyString
  | String a rest => String (lowerAscii a) (asciiToLowerCase rest)
  end.

End JsString.

Import JsString.

(** ** selectorGenerator.ts *)

Module SelectorGenerator.

Inductive Stability := high | medium | low.

(** [interface SuggestedSelectors]. *)
Record SuggestedSelectors := {
  testId : option string;
  id : option string;
  aria : option string;
  css : option string;
  playwright : option string;
  selenium : option string;
  cypress : option string;
  webdriverio : option string;
  stability : Stability;
  recommended : string
}.

(** The result of a call that either returns or raises a [TypeError]. *)
Inductive outcome (A : Type) :=
| Returned (a : A)
| Thrown.
Arguments Returned {A} a.
Arguments Thrown {A}.

Definition TEST_ID_ATTRS : list string :=
  ["data-testid"; "data-cy"; "data-test"; "data-qa"].

(** *** [UNSTABLE_ID_RE = /^(mat-|ng-|[0-9]|[a-f0-9]{8}-)/i] *)

Definition isDigit (c : ascii) : bool :=
  let n := nat_of_ascii c in (48 <=? n)%nat && (n <=? 57)%nat.

(** [[a-f0-9]] under the [i] flag. *)
Definition isHexDigit (c : ascii) : bool :=
  let n := nat_of_ascii (lowerAscii c) in
  isDigit c || ((97 <=? n)%nat && (n <=? 102)%nat).

(** A literal of the pattern matched at the start of [s], ignoring case. *)
Fixpoint matchLiteral (lit s : string) : bool :=
  match lit, s with
  | EmptyString, _ => true
  | String a lit', String b s' =>
      Ascii.eqb (lowerAscii a) (lowerAscii b) && matchLiteral lit' s'
  | String _ _, EmptyString => false
  end.

(** [n] hex digits followed by the literal [lit]. *)
Fixpoint matchHexThen (n : nat) (lit s : string) : bool :=
  match n with
  | O => matchLiteral lit s
  | S n' =>
      match s with
      | String c s' => isHexDigit c && matchHexThen n' lit s'
      | EmptyString => false
      end
  end.

Definition matchDigit (s : string) : bool :=
  match s with
  | String c _ => isDigit c
  | EmptyString => false
  end.

(** [UNSTABLE_ID_RE.test(s)]. *)
Definition UNSTABLE_ID_RE (s : string) : bool :=
  matchLiteral "mat-" s || matchLiteral "ng-" s || matchDigit s
  || matchHexThen 8 "-" s.

(** *** [parseAttrs]

    [map] is an ordinary object: the assignment [map[k] = v] creates or
    overwrites the own property [k], except for [k = '__proto__'], where
    it runs the inherited setter, which ignores a string and leaves [map]
    unchanged. *)
Definition setProperty (k v : string) (map : gmap string string)
  : gmap string string :=
  if String.eqb k "__proto__" then map else <[k := v]> map.

(** The loop [for (i = 0; i + 1 < attributes.length; i += 2)], with the
    map built so far as accumulator. *)
Fixpoint parseAttrsLoop (attributes : list string) (map : gmap string string)
  : gmap string string :=
  match attributes with
  | k :: v :: rest => parseAttrsLoop rest (setProperty k v map)
  | _ => map
  end.

Definition parseAttrs (attributes : option (list string))
  : gmap string string :=
  match attributes with
  | None => ∅
  | Some l => parseAttrsLoop l ∅
  end.

(** *** [escapeStr] *)
Definition escapeStr (s : string) : string :=
  replaceAll dquote (bs +:+ dq) (replaceAll squote (bs +:+ sq) s).

(** *** [buildAriaSelector] *)
Definition buildAriaSelector (role name : string) : string :=
  if negb (truthy name) then "role=" +:+ role
  else "role=" +:+ role +:+ "[name='" +:+ escapeStr name +:+ "']".

(** *** [buildPlaywrightByRole]

    [roleMap] is an object literal whose own keys map to themselves. The
    lookup [roleMap[role]] also sees the properties inherited from
    [Object.prototype]; for such a [role] it yields a function or an
    object, which is not nullish, so [ariaRole] is not a string and
    [escapeStr(ariaRole)] raises a [TypeError] on [s.replace]. *)
Definition roleMap : gmap string string :=
  list_to_map
    (map (fun r => (r, r))
       ["textbox"; "searchbox"; "combobox"; "button"; "link"; "checkbox";
        "radio"; "listbox"; "option"; "menuitem"; "tab"; "switch";
        "slider"; "spinbutton"; "gridcell"]).

Definition objectPrototypeKeys : list string :=
  ["constructor"; "__defineGetter__"; "__defineSetter__"; "hasOwnProperty";
   "__lookupGetter__"; "__lookupSetter__"; "isPrototypeOf";
   "propertyIsEnumerable"; "toString"; "valueOf"; "__proto__";
   "toLocaleString"].

Definition inherited (key : string) : bool :=
  existsb (String.eqb key) objectPrototypeKeys.

(** [roleMap[role] ?? role], [Thrown] standing for the inherited value on
    which [escapeStr] raises. *)
Definition ariaRoleOf (role : string) : outcome string :=
  match roleMap !! role with
  | Some ariaRole => Returned ariaRole
  | None => if inherited role then Thrown else Returned role
  end.

Definition buildPlaywrightByRole (role name : string) : outcome string :=
  match ariaRoleOf role with
  | Thrown => Thrown
  | Returned ariaRole =>
      if negb (truthy name)
      then Returned ("page.getByRole('" +:+ escapeStr ariaRole +:+ "')")
      else Returned ("page.getByRole('" +:+ escapeStr ariaRole
                     +:+ "', { name: '" +:+ escapeStr name +:+ "' })")
  end.

(** *** [buildXPath] *)
Definition buildXPath (role name tag : string) : string :=
  if truthy name
  then "//" +:+ tag +:+ "[@aria-label='" +:+ escapeStr name
       +:+ "' or @title='" +:+ escapeStr name +:+ "']"
  else "//" +:+ tag +:+ "[@role='" +:+ role +:+ "']".

(** *** [buildSemanticCss] *)
Definition useful : list string := ["type"; "name"; "role"; "placeholder"].

Fixpoint semanticParts (attrs : gmap string string) (names : list string)
  : list string :=
  match names with
  | [] => []
  | attr :: rest =>
      match attrs !! attr with
      | Some v =>
          if truthy v
          then ("[" +:+ attr +:+ "=" +:+ dq +:+ v +:+ dq +:+ "]")
               :: semanticParts attrs rest
          else semanticParts attrs rest
      | None => semanticParts attrs rest
      end
  end.

Definition buildSemanticCss (tag : string) (attrs : gmap string string)
  : string :=
  join (tag :: semanticParts attrs useful).

(** [a || b] on strings. *)
Definition orElse (a b : string) : string := if truthy a then a else b.

(** *** [buildSelectorFromRawNode] *)

(** The loop over [TEST_ID_ATTRS]: the first attribute name whose value is
    truthy, with that value. *)
Fixpoint firstTestId (attrs : gmap string string) (names : list string)
  : option (string * string) :=
  match names with
  | [] => None
  | attr :: rest =>
      match attrs !! attr with
      | Some val => if truthy val then Some (attr, val)
                    else firstTestId attrs rest
      | None => firstTestId attrs rest
      end
  end.

(** The guard of priority 2, [idVal && !UNSTABLE_ID_RE.test(idVal)]: the
    value of [attrs['id']] when the guard holds. *)
Definition stableId (idVal : option string) : option string :=
  match idVal with
  | Some s => if truthy s && negb (UNSTABLE_ID_RE s) then Some s else None
  | None => None
  end.

(** The framework fields of a bundle that are populated. *)
Definition frameworkLocators (b : SuggestedSelectors) : list string :=
  omap (fun x => x) [playwright b; selenium b; cypress b; webdriverio b].

(** The keys of the pairs read by the loop of [parseAttrs]. *)
Fixpoint attrKeys (attributes : list string) : list string :=
  match attributes with
  | k :: _ :: rest => k :: attrKeys rest
  | _ => []
  end.

(** [bareQuote false q s]: the text [s] contains the quote [q] outside a
    backslash escape, which ends a literal delimited by [q]. *)
Fixpoint bareQuote (escaped : bool) (q : ascii) (s : string) : bool :=
  match s with
  | EmptyString => false
  | String c rest =>
      if escaped then bareQuote false q rest
      else if Ascii.eqb c backslash then bareQuote true q rest
      else Ascii.eqb c q || bareQuote false q rest
  end.


Section Builder.

(** [String.prototype.toLowerCase], left abstract: nothing below
    depends on the case mapping. *)
Variable toLowerCase : string -> string.

Definition buildSelectorFromRawNode
    (name role tagName : string) (attributes : option (list string))
  : outcome SuggestedSelectors :=
  let attrs := parseAttrs attributes in
  let tag := toLowerCase tagName in
  match firstTestId attrs TEST_ID_ATTRS with
  | Some (attr, val) =>
      (* Priority 1: test ID attributes *)
      let attrSelector := "[" +:+ attr +:+ "=" +:+ dq +:+ val +:+ dq +:+ "]" in
      let byTestId :=
        if String.eqb attr "data-testid"
        then "page.getByTestId('" +:+ escapeStr val +:+ "')"
        else "page.locator('[" +:+ attr +:+ "=" +:+ dq +:+ escapeStr val
             +:+ dq +:+ "]')" in
      Returned
        {| testId := Some attrSelector;
           id := None;
           aria := Some (buildAriaSelector role name);
           css := Some attrSelector;
           playwright := Some byTestId;
           selenium := Some ("driver.find_element(By.CSS_SELECTOR, '"
                             +:+ attrSelector +:+ "')");
           cypress := Some ("cy.get('" +:+ attrSelector +:+ "')");
           webdriverio := Some ("$('" +:+ attrSelector +:+ "')");
           stability := high;
           recommended := byTestId |}
  | None =>
      match stableId (attrs !! "id") with
      | Some idVal =>
          (* Priority 2: stable id *)
          let idSelector := "#" +:+ idVal in
          Returned
            {| testId := None;
               id := Some idSelector;
               aria := Some (buildAriaSelector role name);
               css := Some idSelector;
               playwright := Some ("page.locator('" +:+ idSelector +:+ "')");
               selenium := Some ("driver.find_element(By.ID, '"
                                 +:+ escapeStr idVal +:+ "')");
               cypress := Some ("cy.get('" +:+ idSelector +:+ "')");
               webdriverio := Some ("$('" +:+ idSelector +:+ "')");
               stability := high;
               recommended := "page.locator('" +:+ idSelector +:+ "')" |}
      | None =>
          if truthy name && truthy role then
            (* Priority 3: ARIA role + accessible name *)
            let ariaSelector := buildAriaSelector role name in
            match buildPlaywrightByRole role name with
            | Thrown => Thrown
            | Returned playwrightByRole =>
                let xpathSelector := buildXPath role name tag in
                Returned
                  {| testId := None;
                     id := None;
                     aria := Some ariaSelector;
                     css := Some (buildSemanticCss tag attrs);
                     playwright := Some playwrightByRole;
                     selenium := Some ("driver.find_element(By.XPATH, '"
                                       +:+ xpathSelector +:+ "')");
                     cypress := Some ("cy.get('"
                                      +:+ orElse (buildSemanticCss tag attrs) tag
                                      +:+ "')");
                     webdriverio := Some ("$('" +:+ ariaSelector +:+ "')");
                     stability := medium;
                     recommended := playwrightByRole |}
            end
          else
            (* Priority 4: semantic CSS *)
            let semanticCss := orElse (buildSemanticCss tag attrs) tag in
            Returned
              {| testId := None;
                 id := None;
                 aria := None;
                 css := Some semanticCss;
                 playwright := Some ("page.locator('" +:+ semanticCss +:+ "')");
                 selenium := Some ("driver.find_element(By.CSS_SELECTOR, '"
                                   +:+ semanticCss +:+ "')");
                 cypress := Some ("cy.get('" +:+ semanticCss +:+ "')");
                 webdriverio := Some ("$('" +:+ semanticCss +:+ "')");
                 stability := low;
                 recommended := "page.locator('" +:+ semanticCss +:+ "')" |}
      end
  end.

End Builder.

End SelectorGenerator.

(** ** JavaScript numbers used as depth budgets

    [depth] and [maxDepth] are [number]s.  The model covers the doubles the
    tree functions can reach from integer budgets: the integers of
    magnitude at most 2^53, the two infinities and NaN.  On these values
    [+ 1] and [- 1] are exact, except at the two ends of the integer range,
    where the double result rounds back to the end itself
    (2^53 + 1 = 2^53), so the set is closed under both operations. *)

Module JsNumber.

Inductive number :=
| Int (z : Z)
| Infinity
| NegInfinity
| NaN.

Definition maxExact : Z := 2 ^ 53.

(** [x + 1]. *)
Definition succ (x : number) : number :=
  match x with
  | Int z => Int (Z.min (z + 1) maxExact)
  | other => other
  end.

(** [x - 1]. *)
Definition pred (x : number) : number :=
  match x with
  | Int z => Int (Z.max (z - 1) (- maxExact))
  | other => other
  end.

(** [x <= y]; every comparison with NaN is false. *)
Definition le (x y : number) : bool :=
  match x, y with
  | NaN, _ | _, NaN => false
  | NegInfinity, _ => true
  | _, Infinity => true
  | Int a, Int b => (a <=? b)%Z
  | Infinity, _ => false
  | Int _, NegInfinity => false
  end.

(** [x >= y]. *)
Definition ge (x y : number) : bool := le y x.

End JsNumber.

(** ** browser/types.ts *)

(** The payload of an accessibility value, typed [unknown] in the source:
    a JSON scalar.  [undefined] is the [None] of the enclosing option. *)
Inductive jsvalue :=
| JNull
| JBool (b : bool)
| JNum (n : Z)
| JStr (s : string).

Module CdpAXValue.
Record t := {
  type : string;
  value : option jsvalue
}.
End CdpAXValue.

Module CdpAXProperty.
Record t := {
  name : string;
  value : CdpAXValue.t
}.
End CdpAXProperty.

Module CdpAXNode.
Record t := {
  nodeId : string;
  ignored : bool;
  ignoredReasons : option (list CdpAXProperty.t);
  role : option CdpAXValue.t;
  name : option CdpAXValue.t;
  description : option CdpAXValue.t;
  value : option CdpAXValue.t;
  properties : option (list CdpAXProperty.t);
  parentId : option string;
  childIds : option (list string);
  backendDOMNodeId : option Z;
  frameId : option string
}.
End CdpAXNode.

Module AXNodeSummary.
#[local] Unset Elimination Schemes.
Inductive t := mk {
  role : jsvalue;
  name : jsvalue;
  description : option jsvalue;
  value : option jsvalue;
  focused : option jsvalue;
  disabled : option jsvalue;
  checked : option jsvalue;
  expanded : option jsvalue;
  required : option jsvalue;
  level : option jsvalue;
  backendDOMNodeId : option Z;
  nodeId : string;
  children : option (list t)
}.

(** [summary.children = children] and the rest pattern
    [{ children: _children, ...rest }]: the same node with another
    [children] field. *)
Definition withChildren (node : t) (cs : option (list t)) : t :=
  {| role := role node; name := name node; description := description node;
     value := value node; focused := focused node; disabled := disabled node;
     checked := checked node; expanded := expanded node;
     required := required node; level := level node;
     backendDOMNodeId := backendDOMNodeId node; nodeId := nodeId node;
     children := cs |}.
#[local] Set Elimination Schemes.
End AXNodeSummary.

(** ** utils/axTree.ts *)

Module AxTree.

Import JsNumber.

(** [w?.value]. *)
Definition payload (w : option CdpAXValue.t) : option jsvalue :=
  match w with
  | Some v => CdpAXValue.value v
  | None => None
  end.

(** [v ?? d]: [d] replaces [undefined] and [null]. *)
Definition nullish (v : option jsvalue) (d : jsvalue) : jsvalue :=
  match v with
  | None | Some JNull => d
  | Some x => x
  end.

(** [getPropertyValue]. *)
Definition getPropertyValue (props : option (list CdpAXProperty.t))
    (name : string) : option jsvalue :=
  match props with
  | None => None
  | Some ps =>
      match List.find (fun p => String.eqb (CdpAXProperty.name p) name) ps with
      | Some prop => CdpAXValue.value (CdpAXProperty.value prop)
      | None => None
      end
  end.

(** [cdpAXNodeToSummary]. *)
Definition cdpAXNodeToSummary (node : CdpAXNode.t) : AXNodeSummary.t :=
  let props := Some (default [] (CdpAXNode.properties node)) in
  {| AXNodeSummary.role := nullish (payload (CdpAXNode.role node)) (JStr "unknown");
     AXNodeSummary.name := nullish (payload (CdpAXNode.name node)) (JStr "");
     AXNodeSummary.description := payload (CdpAXNode.description node);
     AXNodeSummary.value := payload (CdpAXNode.value node);
     AXNodeSummary.focused := getPropertyValue props "focused";
     AXNodeSummary.disabled := getPropertyValue props "disabled";
     AXNodeSummary.checked := getPropertyValue props "checked";
     AXNodeSummary.expanded := getPropertyValue props "expanded";
     AXNodeSummary.required := getPropertyValue props "required";
     AXNodeSummary.level := getPropertyValue props "level";
     AXNodeSummary.backendDOMNodeId := CdpAXNode.backendDOMNodeId node;
     AXNodeSummary.nodeId := CdpAXNode.nodeId node;
     AXNodeSummary.children := None |}.

(** [buildTreeIndex]: a later node overwrites an earlier one with the same
    identifier. *)
Definition buildTreeIndex (nodes : list CdpAXNode.t)
  : gmap string CdpAXNode.t :=
  fold_left (fun index node => <[CdpAXNode.nodeId node := node]> index) nodes ∅.

(** The loop of [assembleTree] over [node.childIds], with the recursive
    call as a parameter; [None] when a recursive call does not return. *)
Fixpoint assembleChildren (recurse : CdpAXNode.t -> option AXNodeSummary.t)
    (index : gmap string CdpAXNode.t) (childIds : list string)
  : option (list AXNodeSummary.t) :=
  match childIds with
  | [] => Some []
  | childId :: rest =>
      match index !! childId with
      | Some child =>
          if CdpAXNode.ignored child then assembleChildren recurse index rest
          else
            match recurse child with
            | Some summary =>
                match assembleChildren recurse index rest with
                | Some more => Some (summary :: more)
                | None => None
                end
            | None => None
            end
      | None => assembleChildren recurse index rest
      end
  end.

(** [assembleTree].  The recursion of the source is not structural, so the
    model takes a bound [fuel] on the nesting of calls and answers [None]
    when the bound is reached; a call that answers [None] for every bound
    does not return. *)
Fixpoint assembleTree (fuel : nat) (node : CdpAXNode.t)
    (index : gmap string CdpAXNode.t) (depth maxDepth : number)
  : option AXNodeSummary.t :=
  match fuel with
  | O => None
  | S fuel' =>
      let summary := cdpAXNodeToSummary node in
      match CdpAXNode.childIds node with
      | None => Some summary
      | Some ids =>
          if ge depth maxDepth || Nat.eqb (length ids) 0 then Some summary
          else
            match assembleChildren
                    (fun child => assembleTree fuel' child index (succ depth) maxDepth)
                    index ids with
            | None => None
            | Some cs =>
                if (0 <? length cs)%nat
                then Some (AXNodeSummary.withChildren summary (Some cs))
                else Some summary
            end
      end
  end.

(** [pruneToDepth]. *)
Fixpoint pruneToDepth (node : AXNodeSummary.t) (maxDepth : number)
  : AXNodeSummary.t :=
  match AXNodeSummary.children node with
  | None => AXNodeSummary.withChildren node None
  | Some cs =>
      if le maxDepth (Int 1) then AXNodeSummary.withChildren node None
      else AXNodeSummary.withChildren node
             (Some (List.map (fun child => pruneToDepth child (pred maxDepth)) cs))
  end.

(** [countNodes]. *)
Fixpoint countNodes (node : AXNodeSummary.t) : nat :=
  match AXNodeSummary.children node with
  | None => 1
  | Some cs => 1 + fold_left (fun sum child => sum + countNodes child) cs 0
  end.

(** [findAllNodes]. *)
Fixpoint findAllNodes (node : AXNodeSummary.t)
    (predicate : AXNodeSummary.t -> bool) : list AXNodeSummary.t :=
  (if predicate node then [node] else [])
  ++ match AXNodeSummary.children node with
     | None => []
     | Some cs => flat_map (fun child => findAllNodes child predicate) cs
     end.

(** The loop [for (const child of node.children)] of [findNode], with the
    recursive call as a parameter: the first child on which it finds a
    node. *)
Fixpoint firstFound (search : AXNodeSummary.t -> option AXNodeSummary.t)
    (cs : list AXNodeSummary.t) : option AXNodeSummary.t :=
  match cs with
  | [] => None
  | child :: rest =>
      match search child with
      | Some found => Some found
      | None => firstFound search rest
      end
  end.

(** [findNode]; [null] is [None]. *)
Fixpoint findNode (node : AXNodeSummary.t)
    (predicate : AXNodeSummary.t -> bool) : option AXNodeSummary.t :=
  if predicate node then Some node
  else
    match AXNodeSummary.children node with
    | None => None
    | Some cs => firstFound (fun child => findNode child predicate) cs
    end.

(** *** Notions used to state the properties of the tree functions *)

(** Every node of a tree, in depth-first order. *)
Definition allNodes (node : AXNodeSummary.t) : list AXNodeSummary.t :=
  findAllNodes node (fun _ => true).

(** The invariant of the data model: at every node the [children] field is
    absent or holds a non-empty list. *)
Fixpoint childrenInvariant (node : AXNodeSummary.t) : bool :=
  match AXNodeSummary.children node with
  | None => true
  | Some cs => (0 <? length cs)%nat && forallb childrenInvariant cs
  end.

(** The number of levels of a tree; a node without children has one. *)
Fixpoint levels (node : AXNodeSummary.t) : nat :=
  match AXNodeSummary.children node with
  | None => 1
  | Some cs => S (list_max (List.map levels cs))
  end.

(** The shape of a tree: its branching structure, without the node data. *)
#[local] Unset Elimination Schemes.
Inductive shape := Shape (subtrees : list shape).
#[local] Set Elimination Schemes.

Fixpoint shapeOf (node : AXNodeSummary.t) : shape :=
  match AXNodeSummary.children node with
  | None => Shape []
  | Some cs => Shape (List.map shapeOf cs)
  end.

(** The budget [d] is a number greater than or equal to [n]. *)
Definition atLeast (d : number) (n : nat) : Prop :=
  match d with
  | Int z => (Z.of_nat n <= z)%Z
  | Infinity => True
  | NegInfinity | NaN => False
  end.

(** The raw nodes that [assembleTree] can visit from [root]: [root] itself
    and, from a visited node, each child identifier that the index resolves
    to a node that is not ignored. *)
Inductive visited (index : gmap string CdpAXNode.t) (root : CdpAXNode.t)
  : CdpAXNode.t -> Prop :=
| visited_root : visited index root root
| visited_child (parent child : CdpAXNode.t) (ids : list string)
    (childId : string) :
    visited index root parent ->
    CdpAXNode.childIds parent = Some ids ->
    childId ∈ ids ->
    index !! childId = Some child ->
    CdpAXNode.ignored child = false ->
    visited index root child.

(** A raw node without optional fields, for concrete runs. *)
Definition plainNode (nodeId : string) (ignored : bool)
    (parentId : option string) (childIds : option (list string))
  : CdpAXNode.t :=
  {| CdpAXNode.nodeId := nodeId; CdpAXNode.ignored := ignored;
     CdpAXNode.ignoredReasons := None; CdpAXNode.role := None;
     CdpAXNode.name := None; CdpAXNode.description := None;
     CdpAXNode.value := None; CdpAXNode.properties := None;
     CdpAXNode.parentId := parentId; CdpAXNode.childIds := childIds;
     CdpAXNode.backendDOMNodeId := None; CdpAXNode.frameId := None |}.

End AxTree.

(** ** tools/getAccessibilityTree.ts: the [useFullTree] branch *)

Module GetAccessibilityTree.

Import JsNumber AxTree.

(** [interestingOnly ? nodes.filter((n) => !n.ignored) : nodes]. *)
Definition filterNodes (interestingOnly : bool) (nodes : list CdpAXNode.t)
  : list CdpAXNode.t :=
  if interestingOnly
  then List.filter (fun n => negb (CdpAXNode.ignored n)) nodes
  else nodes.

(** [filtered.find((n) => !n.parentId || !nodeIds.has(n.parentId))]. *)
Definition findRoot (filtered : list CdpAXNode.t) : option CdpAXNode.t :=
  let nodeIds : gset string := list_to_set (List.map CdpAXNode.nodeId filtered) in
  List.find
    (fun n =>
       match CdpAXNode.parentId n with
       | None => true
       | Some p => negb (truthy p) || negb (bool_decide (p ∈ nodeIds))
       end)
    filtered.

Inductive treeOutput :=
| NoRootFound
| TreeBuilt (tree : AXNodeSummary.t) (nodeCount : nat).

(** The tree and node count computed by the handler from the node list of
    [Accessibility.getFullAXTree]; [None] when [assembleTree] does not
    return within [fuel]. *)
Definition fullTree (fuel : nat) (interestingOnly : bool) (maxDepth : number)
    (nodes : list CdpAXNode.t) : option treeOutput :=
  let filtered := filterNodes interestingOnly nodes in
  match findRoot filtered with
  | None => Some NoRootFound
  | Some root =>
      match assembleTree fuel root (buildTreeIndex filtered) (Int 0) maxDepth with
      | None => None
      | Some assembled =>
          Some (TreeBuilt (pruneToDepth assembled maxDepth) (countNodes assembled))
      end
  end.

End GetAccessibilityTree.

(** ** tools/getInteractiveElements.ts: the selection of the nodes *)

Module GetInteractiveElements.

Import JsNumber SelectorGenerator.

Definition INTERACTIVE_ROLES : list string :=
  ["button"; "link"; "textbox"; "searchbox"; "combobox"; "listbox"; "option";
   "checkbox"; "radio"; "switch"; "slider"; "spinbutton"; "menuitem"; "tab";
   "treeitem"; "gridcell"; "rowheader"; "columnheader"; "progressbar";
   "scrollbar"].

(** [set.has(x)] for a set given by the list of its elements. *)
Definition has (set : list string) (x : string) : bool :=
  existsb (String.eqb x) set.

(** [disabledProp?.value?.value === true] for
    [disabledProp = props.find((p) => p.name === 'disabled')]. *)
Definition disabledIsTrue (props : list CdpAXProperty.t) : bool :=
  match List.find (fun p => String.eqb (CdpAXProperty.name p) "disabled") props with
  | Some disabledProp =>
      match CdpAXValue.value (CdpAXProperty.value disabledProp) with
      | Some (JBool true) => true
      | _ => false
      end
  | None => false
  end.

(** [array.filter(callback)] for a callback that may raise: the first
    exception ends the call. *)
Fixpoint filterRaising {A : Type} (callback : A -> outcome bool) (l : list A)
  : outcome (list A) :=
  match l with
  | [] => Returned []
  | x :: rest =>
      match callback x with
      | Thrown => Thrown
      | Returned keep =>
          match filterRaising callback rest with
          | Thrown => Thrown
          | Returned kept => Returned (if keep then x :: kept else kept)
          end
      end
  end.

(** [array.slice(0, end)]: [end] is truncated to an integer, NaN counts as
    0, a negative [end] counts from the end of the array. *)
Definition slice0 {A : Type} (l : list A) (finish : number) : list A :=
  match finish with
  | Int z =>
      if (0 <=? z)%Z then take (Z.to_nat z) l
      else take (Z.to_nat (Z.of_nat (length l) + z)) l
  | Infinity => l
  | NegInfinity | NaN => []
  end.

(** A raw node with a role payload and, optionally, a [disabled]
    property, for concrete runs. *)
Definition roleNode (nodeId : string) (ignored : bool) (role : jsvalue)
    (disabled : option jsvalue) : CdpAXNode.t :=
  {| CdpAXNode.nodeId := nodeId; CdpAXNode.ignored := ignored;
     CdpAXNode.ignoredReasons := None;
     CdpAXNode.role :=
       Some {| CdpAXValue.type := "role"; CdpAXValue.value := Some role |};
     CdpAXNode.name := None; CdpAXNode.description := None;
     CdpAXNode.value := None;
     CdpAXNode.properties :=
       match disabled with
       | Some v =>
           Some [{| CdpAXProperty.name := "disabled";
                    CdpAXProperty.value :=
                      {| CdpAXValue.type := "boolean"; CdpAXValue.value := Some v |} |}]
       | None => None
       end;
     CdpAXNode.parentId := None; CdpAXNode.childIds := None;
     CdpAXNode.backendDOMNodeId := None; CdpAXNode.frameId := None |}.

Section Selection.

Variable toLowerCase : string -> string.

(** [args.roles ? new Set(args.roles.map((r) => r.toLowerCase()))
    : INTERACTIVE_ROLES]; an array, even an empty one, is truthy. *)
Definition targetRoles (roles : option (list string)) : list string :=
  match roles with
  | Some rs => List.map toLowerCase rs
  | None => INTERACTIVE_ROLES
  end.

(** The callback of [allNodes.filter].  The role payload is cast to a
    string without a check: on a number or a boolean the call
    [.toLowerCase()] raises a [TypeError]. *)
Definition isInteractive (roles : option (list string)) (includeDisabled : bool)
    (node : CdpAXNode.t) : outcome bool :=
  if CdpAXNode.ignored node then Returned false
  else
    let lowered :=
      match AxTree.payload (CdpAXNode.role node) with
      | None | Some JNull => Returned (toLowerCase "")
      | Some (JStr role) => Returned (toLowerCase role)
      | Some (JBool _) | Some (JNum _) => Thrown
      end in
    match lowered with
    | Thrown => Thrown
    | Returned role =>
        if negb (has (targetRoles roles) role) then Returned false
        else if negb includeDisabled
                && disabledIsTrue (default [] (CdpAXNode.properties node))
        then Returned false
        else Returned true
    end.

(** [interactiveNodes] and [limited], from the arguments and the nodes of
    [Accessibility.getFullAXTree]. *)
Definition selectNodes (roles : option (list string)) (includeDisabled : bool)
    (maxElements : number) (allNodes : list CdpAXNode.t)
  : outcome (list CdpAXNode.t * list CdpAXNode.t) :=
  match filterRaising (isInteractive roles includeDisabled) allNodes with
  | Thrown => Thrown
  | Returned interactiveNodes =>
      Returned (interactiveNodes, slice0 interactiveNodes maxElements)
  end.

End Selection.

End GetInteractiveElements.

(** ** browser/BrowserManager.ts

    The browser, its pages and the CDP session are external objects, named
    here by numbers.  What Chrome answers to a connection attempt is an
    input of [connect]. *)

Module BrowserManager.

Record BrowserState := {
  browser : nat;
  page : nat;
  cdpSession : nat;
  debugUrl : string;
  connectedAt : Z
}.

(** A call returns a value or raises an error with a message. *)
Inductive result (A : Type) :=
| Ok (a : A)
| Raised (message : string).
Arguments Ok {A} a.
Arguments Raised {A} message.

(** The message of [BrowserNotConnectedError], from utils/errors.ts. *)
Definition notConnectedMessage : string :=
  "Browser is not connected. Use browser_connect first. "
  +:+ "Make sure Chrome is running with --remote-debugging-port=9222.".

(** The answers of the external calls of [connect], in the order of the
    calls: [puppeteer.connect], [browser.pages], [page.createCDPSession]
    and [cdpSession.send('Accessibility.enable')]. *)
Inductive sessionAnswer :=
| SessionFails (message : string)
| SessionOpens (session : nat) (enable : option string).

Inductive connectAnswer :=
| ConnectFails (message : string)
| Connects (browser : nat) (pages : result (list nat))
    (openSession : nat -> sessionAnswer).

(** [disconnect]: the errors of [detach] and of [browser.disconnect] are
    caught and ignored. *)
Definition disconnect (state : option BrowserState) : option BrowserState :=
  None.

(** [connect]: the new state and the outcome of the call. *)
Definition connect (url : string) (now : Z) (answer : connectAnswer)
    (state : option BrowserState) : option BrowserState * result unit :=
  let state := match state with Some _ => disconnect state | None => state end in
  match answer with
  | ConnectFails message => (state, Raised message)
  | Connects browser (Raised message) _ => (state, Raised message)
  | Connects browser (Ok pages) openSession =>
      match last pages with
      | None =>
          (state, Raised "No pages found in the connected browser. Open a tab first.")
      | Some page =>
          match openSession page with
          | SessionFails message => (state, Raised message)
          | SessionOpens session (Some message) => (state, Raised message)
          | SessionOpens session None =>
              (Some {| browser := browser; page := page; cdpSession := session;
                       debugUrl := url; connectedAt := now |},
               Ok tt)
          end
      end
  end.

(** [requireConnection]. *)
Definition requireConnection (state : option BrowserState) : result BrowserState :=
  match state with
  | None => Raised notConnectedMessage
  | Some st => Ok st
  end.

(** [isConnected]. *)
Definition isConnected (state : option BrowserState) : bool :=
  match state with
  | None => false
  | Some _ => true
  end.

End BrowserManager.

(** * Properties of the selector generator *)

Import SelectorGenerator.

Lemma truthy_true (s : string) : truthy s = true <-> s <> "".
Proof. destruct s; simpl; split; intros H; congruence. Qed.

Lemma truthy_false (s : string) : truthy s = false <-> s = "".
Proof. destruct s; simpl; split; intros H; congruence. Qed.

(** ** [parseAttrs] *)

(** Induction over a flat attribute sequence, two elements at a time. *)
Lemma pairs_ind (P : list string -> Prop) :
  P [] -> (forall x, P [x]) -> (forall k v rest, P rest -> P (k :: v :: rest)) ->
  forall l, P l.
Proof.
  intros Hnil Hone Hstep.
  assert (Hboth : forall l, P l /\ forall x, P (x :: l)).
  { induction l as [|y l [IH1 IH2]]; split; auto. }
  intros l. apply Hboth.
Qed.

Lemma setProperty_size (k v : string) (m : gmap string string) :
  size (setProperty k v m) <= S (size m).
Proof.
  unfold setProperty. destruct (String.eqb k "__proto__"); [lia|].
  destruct (m !! k) eqn:Hk.
  - erewrite map_size_insert_Some by eauto. lia.
  - rewrite map_size_insert_None by assumption. lia.
Qed.

Lemma setProperty_fresh (k v : string) (m : gmap string string) :
  k <> "__proto__" -> m !! k = None ->
  size (setProperty k v m) = S (size m).
Proof.
  intros Hk Hnone. unfold setProperty.
  destruct (String.eqb_spec k "__proto__"); [contradiction|].
  by apply map_size_insert_None.
Qed.

Lemma setProperty_lookup_ne (k v j : string) (m : gmap string string) :
  j <> k -> setProperty k v m !! j = m !! j.
Proof.
  intros Hne. unfold setProperty.
  destruct (String.eqb k "__proto__"); [done|].
  by rewrite lookup_insert_ne.
Qed.

Lemma half_step (n : nat) : (S (S n) / 2 = S (n / 2))%nat.
Proof. change (S (S n)) with (1 * 2 + n)%nat. rewrite Nat.div_add_l; lia. Qed.

Lemma parseAttrsLoop_size_le (l : list string) :
  forall m : gmap string string,
    size (parseAttrsLoop l m) <= size m + length l / 2.
Proof.
  induction l as [|x|k v rest IH] using pairs_ind; intros m.
  - simpl. lia.
  - simpl. lia.
  - cbn [parseAttrsLoop length]. rewrite half_step.
    specialize (IH (setProperty k v m)).
    pose proof (setProperty_size k v m). lia.
Qed.

Lemma parseAttrsLoop_size_distinct (l : list string) :
  forall m : gmap string string,
    NoDup (attrKeys l) ->
    "__proto__" ∉ attrKeys l ->
    (forall k, k ∈ attrKeys l -> m !! k = None) ->
    size (parseAttrsLoop l m) = size m + length l / 2.
Proof.
  induction l as [|x|k v rest IH] using pairs_ind; intros m Hnd Hproto Hfresh.
  - simpl. lia.
  - simpl. lia.
  - cbn [parseAttrsLoop length attrKeys] in *. rewrite half_step.
    apply NoDup_cons in Hnd as [Hk Hnd].
    apply not_elem_of_cons in Hproto as [Hkp Hproto].
    rewrite IH; try assumption.
    + rewrite setProperty_fresh; [lia|congruence|].
      apply Hfresh. left.
    + intros j Hj. rewrite setProperty_lookup_ne.
      * apply Hfresh. by right.
      * intros ->. contradiction.
Qed.

Lemma parseAttrsLoop_trailing (l : list string) :
  forall (m : gmap string string) (x : string),
    Nat.even (length l) = true ->
    parseAttrsLoop (l ++ [x])%list m = parseAttrsLoop l m.
Proof.
  induction l as [|y|k v rest IH] using pairs_ind; intros m x Heven.
  - reflexivity.
  - discriminate.
  - cbn [app parseAttrsLoop]. apply IH. exact Heven.
Qed.

(** C5, as the claim states it, fails: a key that occurs twice is stored
    once.  The sequence has even length 4 and yields one entry, not two. *)
Lemma parseAttrs_duplicate_key_counterexample :
  Nat.even (length ["a"; "1"; "a"; "2"]) = true /\
  size (parseAttrs (Some ["a"; "1"; "a"; "2"])) = 1 /\
  size (parseAttrs (Some ["a"; "1"; "a"; "2"]))
    <> (length ["a"; "1"; "a"; "2"] / 2)%nat.
Proof. vm_compute. repeat split; congruence. Qed.

(** C5 (amended): an absent input yields the empty mapping; a sequence of
    length n yields at most floor(n/2) entries, and exactly floor(n/2)
    when the paired keys are pairwise distinct and none of them is
    [__proto__]; the trailing element of a sequence of odd length is
    dropped. *)
Theorem parseAttrs_entries (l : list string) :
  parseAttrs None = ∅ /\
  size (parseAttrs (Some l)) <= length l / 2 /\
  (NoDup (attrKeys l) -> "__proto__" ∉ attrKeys l ->
   size (parseAttrs (Some l)) = (length l / 2)%nat) /\
  (forall x, Nat.even (length l) = true ->
             parseAttrs (Some (l ++ [x])%list) = parseAttrs (Some l)).
Proof.
  repeat split.
  - pose proof (parseAttrsLoop_size_le l ∅) as H.
    rewrite map_size_empty in H. exact H.
  - intros Hnd Hproto. unfold parseAttrs.
    rewrite parseAttrsLoop_size_distinct; try assumption.
    + by rewrite map_size_empty.
    + intros k _. apply lookup_empty.
  - intros x Heven. apply parseAttrsLoop_trailing. exact Heven.
Qed.

Lemma parseAttrs_entries_witness :
  size (parseAttrs (Some ["type"; "text"; "id"; "q"; "extra"])) = 2 /\
  parseAttrs (Some (["type"; "text"; "id"; "q"] ++ ["extra"])%list)
  = parseAttrs (Some ["type"; "text"; "id"; "q"]).
Proof.
  split.
  - apply (proj1 (proj2 (proj2 (parseAttrs_entries
                                   ["type"; "text"; "id"; "q"; "extra"])))).
    + apply (bool_decide_unpack _). vm_compute. exact I.
    + apply (bool_decide_unpack _). vm_compute. exact I.
  - apply (proj2 (proj2 (proj2 (parseAttrs_entries ["type"; "text"; "id"; "q"])))).
    reflexivity.
Defined.

(** ** The unstable-id pattern *)

Lemma prefix_matchLiteral (lit s : string) :
  String.prefix lit s = true -> matchLiteral lit s = true.
Proof.
  revert s. induction lit as [|a lit IH]; intros s H; [reflexivity|].
  destruct s as [|b s]; simpl in *; [discriminate|].
  destruct (Ascii.ascii_dec a b) as [->|]; [|discriminate].
  rewrite Ascii.eqb_refl. simpl. by apply IH.
Qed.

(** The patterns the documentation names are all rejected: a [mat-] or [ng-]
    prefix and a leading digit, in any letter case. *)
Lemma reserved_patterns_unstable (s : string) :
  String.prefix "mat-" s = true \/ String.prefix "ng-" s = true
  \/ matchDigit s = true ->
  UNSTABLE_ID_RE s = true.
Proof.
  unfold UNSTABLE_ID_RE. intros [H | [H | H]].
  - by rewrite (prefix_matchLiteral _ _ H).
  - rewrite (prefix_matchLiteral _ _ H). by rewrite orb_true_r.
  - rewrite H. by rewrite !orb_true_r.
Qed.

(** Eight hex digits and a dash, the start of a UUID, are rejected too. *)
Lemma uuid_prefix_unstable (h rest : string) :
  String.length h = 8 ->
  forallb isHexDigit (list_ascii_of_string h) = true ->
  UNSTABLE_ID_RE (h +:+ "-" +:+ rest) = true.
Proof.
  intros Hlen Hhex. unfold UNSTABLE_ID_RE.
  assert (Hmatch : matchHexThen 8 "-" (h +:+ "-" +:+ rest) = true);
    [|by rewrite Hmatch, !orb_true_r].
  do 8 (destruct h as [|? h]; [discriminate|]).
  destruct h; [|discriminate].
  cbn [list_ascii_of_string forallb] in Hhex.
  cbv beta iota delta [String.append]. cbn [matchHexThen].
  repeat (apply andb_prop in Hhex as [-> Hhex]). reflexivity.
Qed.

Example unstable_ids :
  List.map UNSTABLE_ID_RE
    ["mat-input-3"; "ng-abc"; "42"; "a1b2c3d4-e5f6-7890"; "MAT-Input";
     "A1B2C3D4-x"; "email-input"; "a1b2c3d-"; "submit"]
  = [true; true; true; true; true; true; false; false; false].
Proof. reflexivity. Qed.

(** ** [buildPlaywrightByRole] *)

Lemma roleMap_self (role r : string) : roleMap !! role = Some r -> r = role.
Proof.
  unfold roleMap. intros H. apply elem_of_list_to_map_2 in H.
  cbn [List.map] in H.
  repeat match goal with
         | H : _ ∈ _ :: _ |- _ => apply elem_of_cons in H as [H | H]
         | H : _ ∈ [] |- _ => by apply elem_of_nil in H
         | H : (_, _) = (_, _) |- _ => inversion H; subst; clear H
         end; reflexivity.
Qed.

Lemma inherited_not_own (role : string) :
  inherited role = true -> roleMap !! role = None.
Proof.
  unfold inherited, objectPrototypeKeys. cbn [existsb]. intros H.
  repeat match type of H with
         | (_ || _)%bool = true => apply orb_prop in H as [H | H]
         | String.eqb _ _ = true => apply String.eqb_eq in H; subst
         end; try discriminate; vm_compute; reflexivity.
Qed.

Lemma ariaRoleOf_cases (role : string) :
  ariaRoleOf role = if inherited role then Thrown else Returned role.
Proof.
  unfold ariaRoleOf. destruct (inherited role) eqn:Hin.
  - by rewrite (inherited_not_own _ Hin).
  - destruct (roleMap !! role) as [r|] eqn:Hr; [|reflexivity].
    by rewrite (roleMap_self _ _ Hr).
Qed.

Lemma buildPlaywrightByRole_thrown (role name : string) :
  buildPlaywrightByRole role name = Thrown <-> inherited role = true.
Proof.
  unfold buildPlaywrightByRole. rewrite ariaRoleOf_cases.
  destruct (inherited role); [tauto|].
  destruct (negb (truthy name)); split; discriminate.
Qed.

Lemma buildPlaywrightByRole_returns (role name : string) :
  inherited role = false ->
  exists text, buildPlaywrightByRole role name = Returned text.
Proof.
  intros H. unfold buildPlaywrightByRole. rewrite ariaRoleOf_cases, H.
  destruct (negb (truthy name)); eauto.
Qed.

(** ** [buildSelectorFromRawNode] *)

Lemma firstTestId_canonical (attrs : gmap string string) (v : string) :
  attrs !! "data-testid" = Some v -> v <> "" ->
  firstTestId attrs TEST_ID_ATTRS = Some ("data-testid", v).
Proof.
  intros H Hv. cbn [firstTestId TEST_ID_ATTRS]. rewrite H.
  apply truthy_true in Hv. by rewrite Hv.
Qed.

Lemma firstTestId_absent (attrs : gmap string string) :
  (forall attr, attr ∈ TEST_ID_ATTRS -> attrs !! attr = None) ->
  firstTestId attrs TEST_ID_ATTRS = None.
Proof.
  intros H. unfold TEST_ID_ATTRS in *. cbn [firstTestId].
  rewrite !H; [reflexivity | set_solver ..].
Qed.

Lemma stableId_unstable (idVal : string) :
  UNSTABLE_ID_RE idVal = true -> stableId (Some idVal) = None.
Proof. intros H. unfold stableId. rewrite H. by rewrite andb_false_r. Qed.

Section BuilderFacts.

Variable toLowerCase : string -> string.

Local Abbreviation build := (buildSelectorFromRawNode toLowerCase).

(** The builder raises only in priority 3, and only for a role that names a
    property inherited from [Object.prototype]; for every other role it
    returns a bundle. *)
Lemma buildSelectorFromRawNode_returns
    (name role tagName : string) (attributes : option (list string)) :
  inherited role = false ->
  exists b, build name role tagName attributes = Returned b.
Proof.
  intros Hrole. unfold buildSelectorFromRawNode.
  destruct (firstTestId _ _) as [[attr val]|]; [eauto|].
  destruct (stableId _); [eauto|].
  destruct (truthy name && truthy role); [|eauto].
  destruct (buildPlaywrightByRole_returns role name Hrole) as [text ->]. eauto.
Qed.

Lemma buildSelectorFromRawNode_thrown
    (name role tagName : string) (attributes : option (list string)) :
  build name role tagName attributes = Thrown <->
  firstTestId (parseAttrs attributes) TEST_ID_ATTRS = None /\
  stableId (parseAttrs attributes !! "id") = None /\
  truthy name && truthy role = true /\ inherited role = true.
Proof.
  unfold buildSelectorFromRawNode.
  destruct (firstTestId _ _) as [[attr val]|];
    [split; [discriminate | intros [? _]; discriminate]|].
  destruct (stableId _);
    [split; [discriminate | intros (_ & ? & _); discriminate]|].
  destruct (truthy name && truthy role);
    [|split; [discriminate | intros (_ & _ & ? & _); discriminate]].
  pose proof (buildPlaywrightByRole_thrown role name) as Hthrown.
  destruct (buildPlaywrightByRole role name).
  - split; [discriminate|]. intros (_ & _ & _ & Hin).
    apply Hthrown in Hin. discriminate.
  - split; [|reflexivity]. intros _. repeat split; tauto.
Qed.

(** C10: in each of the four tiers the recommended string is the
    playwright string of the bundle. *)
Theorem recommended_is_playwright
    (name role tagName : string) (attributes : option (list string))
    (b : SuggestedSelectors) :
  build name role tagName attributes = Returned b ->
  playwright b = Some (recommended b).
Proof.
  unfold buildSelectorFromRawNode.
  destruct (firstTestId _ _) as [[attr val]|];
    [intros [= <-]; reflexivity|].
  destruct (stableId _); [intros [= <-]; reflexivity|].
  destruct (truthy name && truthy role); [|intros [= <-]; reflexivity].
  destruct (buildPlaywrightByRole role name); [|discriminate].
  intros [= <-]; reflexivity.
Qed.

(** C2 (amended): every returned bundle, whichever tier wins, carries one
    locator string for each of the four supported frameworks, playwright,
    selenium, cypress and webdriverio, and a css locator beside them. *)
Theorem four_frameworks_populated
    (name role tagName : string) (attributes : option (list string))
    (b : SuggestedSelectors) :
  build name role tagName attributes = Returned b ->
  exists p s c w,
    playwright b = Some p /\ selenium b = Some s /\ cypress b = Some c /\
    webdriverio b = Some w /\ frameworkLocators b = [p; s; c; w] /\
    is_Some (css b).
Proof.
  unfold buildSelectorFromRawNode, frameworkLocators.
  destruct (firstTestId _ _) as [[attr val]|];
    [intros [= <-]; cbn; eauto 10|].
  destruct (stableId _); [intros [= <-]; cbn; eauto 10|].
  destruct (truthy name && truthy role); [|intros [= <-]; cbn; eauto 10].
  destruct (buildPlaywrightByRole role name); [|discriminate].
  intros [= <-]; cbn; eauto 10.
Qed.

(** C3 (amended): when the attribute map holds a non-empty [data-testid]
    value, the test-id tier wins over a stable [id]: stability is high,
    the testId locator is populated and the id locator is not. *)
Theorem testid_tier_wins
    (name role tagName : string) (attributes : option (list string))
    (testIdVal idVal : string) :
  parseAttrs attributes !! "data-testid" = Some testIdVal ->
  testIdVal <> "" ->
  parseAttrs attributes !! "id" = Some idVal ->
  UNSTABLE_ID_RE idVal = false ->
  exists b,
    build name role tagName attributes = Returned b /\
    stability b = high /\
    testId b = Some ("[data-testid=" +:+ dq +:+ testIdVal +:+ dq +:+ "]") /\
    id b = None /\
    recommended b = "page.getByTestId('" +:+ escapeStr testIdVal +:+ "')".
Proof.
  intros Ht Hne _ _. unfold buildSelectorFromRawNode.
  rewrite (firstTestId_canonical _ _ Ht Hne).
  eexists. split; [reflexivity|]. cbn. auto.
Qed.

(** C4: with no test-id attribute and an [id] that matches the unstable
    pattern, priority 2 is skipped: the bundle has no id locator and comes
    from priority 3 (name and role both non-empty) or priority 4. *)
Theorem unstable_id_falls_through
    (name role tagName : string) (attributes : option (list string))
    (idVal : string) :
  (forall attr, attr ∈ TEST_ID_ATTRS -> parseAttrs attributes !! attr = None) ->
  parseAttrs attributes !! "id" = Some idVal ->
  UNSTABLE_ID_RE idVal = true ->
  match build name role tagName attributes with
  | Returned b =>
      id b = None /\ testId b = None /\
      stability b = (if truthy name && truthy role then medium else low) /\
      css b = Some (if truthy name && truthy role
                    then buildSemanticCss (toLowerCase tagName) (parseAttrs attributes)
                    else orElse (buildSemanticCss (toLowerCase tagName)
                                   (parseAttrs attributes))
                           (toLowerCase tagName))
  | Thrown => truthy name && truthy role = true /\ inherited role = true
  end.
Proof.
  intros Hnone Hid Hre. unfold buildSelectorFromRawNode.
  rewrite (firstTestId_absent _ Hnone), Hid, (stableId_unstable _ Hre).
  destruct (truthy name && truthy role); [|cbn; auto].
  pose proof (buildPlaywrightByRole_thrown role name) as Hthrown.
  destruct (buildPlaywrightByRole role name); cbn; [auto|].
  split; [reflexivity | tauto].
Qed.

End BuilderFacts.

(** ** Concrete runs of the builder, with ASCII lower-casing *)

Lemma recommended_is_playwright_witness :
  exists b,
    buildSelectorFromRawNode asciiToLowerCase "Home" "link" "a" None = Returned b /\
    playwright b = Some (recommended b).
Proof.
  eexists. split; [reflexivity|].
  apply (recommended_is_playwright asciiToLowerCase "Home" "link" "a" None).
  reflexivity.
Defined.

(** C2, as the claim states it, fails: the bundle has four framework
    fields, so a returned bundle never carries five framework strings. *)
Lemma five_frameworks_counterexample :
  exists b,
    buildSelectorFromRawNode asciiToLowerCase "Home" "link" "a" None = Returned b /\
    length (frameworkLocators b) = 4 /\
    length (frameworkLocators b) <> 5.
Proof. eexists. split; [reflexivity|]. vm_compute. split; congruence. Qed.

Lemma four_frameworks_populated_witness :
  exists b p s c w,
    buildSelectorFromRawNode asciiToLowerCase "" "" "DIV" None = Returned b /\
    playwright b = Some p /\ selenium b = Some s /\ cypress b = Some c /\
    webdriverio b = Some w /\ frameworkLocators b = [p; s; c; w] /\
    is_Some (css b).
Proof.
  eexists.
  destruct (four_frameworks_populated asciiToLowerCase "" "" "DIV" None _ eq_refl)
    as (p & s & c & w & H).
  exists p, s, c, w. split; [reflexivity | exact H].
Defined.

(** C3, as the claim states it, fails: a [data-testid] attribute with an
    empty value is in the attribute map, yet it is falsy, the test-id tier
    is skipped and the stable [id] wins through the id tier. *)
Lemma empty_testid_counterexample :
  parseAttrs (Some ["data-testid"; ""; "id"; "main"]) !! "data-testid" = Some "" /\
  parseAttrs (Some ["data-testid"; ""; "id"; "main"]) !! "id" = Some "main" /\
  UNSTABLE_ID_RE "main" = false /\
  exists b,
    buildSelectorFromRawNode asciiToLowerCase "Submit" "button" "button"
      (Some ["data-testid"; ""; "id"; "main"]) = Returned b /\
    stability b = high /\ testId b = None /\ id b = Some "#main".
Proof.
  repeat split; try reflexivity.
  eexists. split; [reflexivity|]. repeat split; reflexivity.
Qed.

Lemma testid_tier_wins_witness :
  exists b,
    buildSelectorFromRawNode asciiToLowerCase "Submit" "button" "button"
      (Some ["data-testid"; "submit-btn"; "id"; "main"]) = Returned b /\
    stability b = high /\
    testId b = Some ("[data-testid=" +:+ dq +:+ "submit-btn" +:+ dq +:+ "]") /\
    id b = None /\
    recommended b = "page.getByTestId('" +:+ escapeStr "submit-btn" +:+ "')".
Proof.
  apply (testid_tier_wins asciiToLowerCase "Submit" "button" "button"
           (Some ["data-testid"; "submit-btn"; "id"; "main"]) "submit-btn" "main").
  - reflexivity.
  - discriminate.
  - reflexivity.
  - reflexivity.
Defined.

Lemma unstable_id_falls_through_witness :
  match buildSelectorFromRawNode asciiToLowerCase "Email" "textbox" "INPUT"
          (Some ["id"; "mat-input-3"; "type"; "email"]) with
  | Returned b =>
      id b = None /\ testId b = None /\ stability b = medium /\
      css b = Some ("input[type=" +:+ dq +:+ "email" +:+ dq +:+ "]")
  | Thrown => False
  end.
Proof.
  pose proof (unstable_id_falls_through asciiToLowerCase "Email" "textbox" "INPUT"
                (Some ["id"; "mat-input-3"; "type"; "email"]) "mat-input-3") as H.
  lazy beta in H.
  assert (Hnone : forall attr, attr ∈ TEST_ID_ATTRS ->
            parseAttrs (Some ["id"; "mat-input-3"; "type"; "email"]) !! attr = None).
  { intros attr Hin. unfold TEST_ID_ATTRS in Hin.
    repeat (apply elem_of_cons in Hin as [-> | Hin]; [reflexivity|]).
    by apply elem_of_nil in Hin. }
  specialize (H Hnone eq_refl eq_refl).
  exact H.
Defined.

(** The end-to-end scenarios B, C and D of the documentation. *)
Example scenario_B :
  exists b,
    buildSelectorFromRawNode asciiToLowerCase "Submit" "button" "button"
      (Some ["data-testid"; "submit-btn"; "id"; "mat-9"]) = Returned b /\
    stability b = high /\ recommended b = "page.getByTestId('submit-btn')".
Proof. eexists. split; [reflexivity|]. split; reflexivity. Qed.

Example scenario_C :
  exists b,
    buildSelectorFromRawNode asciiToLowerCase "Email" "textbox" "input"
      (Some ["id"; "email-input"]) = Returned b /\
    stability b = high /\ id b = Some "#email-input".
Proof. eexists. split; [reflexivity|]. split; reflexivity. Qed.

Example scenario_D :
  exists b,
    buildSelectorFromRawNode asciiToLowerCase "Home" "link" "a" None = Returned b /\
    stability b = medium /\
    recommended b = "page.getByRole('link', { name: 'Home' })".
Proof. eexists. split; [reflexivity|]. split; reflexivity. Qed.

(** A role that names an inherited property makes priority 3 raise. *)
Example inherited_role_raises :
  buildSelectorFromRawNode asciiToLowerCase "Go" "constructor" "div" None = Thrown.
Proof. reflexivity. Qed.

(** ** Escaping *)

Lemma append_cons (a : ascii) (s1 s2 : string) :
  String a s1 +:+ s2 = String a (s1 +:+ s2).
Proof. reflexivity. Qed.

Lemma append_assoc (s1 s2 s3 : string) :
  s1 +:+ (s2 +:+ s3) = (s1 +:+ s2) +:+ s3.
Proof.
  induction s1 as [|a s1 IH]; [reflexivity|].
  rewrite !append_cons. by rewrite IH.
Qed.

Lemma replaceAll_app (c : ascii) (rep s1 s2 : string) :
  replaceAll c rep (s1 +:+ s2) = replaceAll c rep s1 +:+ replaceAll c rep s2.
Proof.
  induction s1 as [|a s1 IH]; [reflexivity|].
  rewrite append_cons. cbn [replaceAll]. rewrite IH.
  destruct (Ascii.eqb a c); [|reflexivity].
  by rewrite append_assoc.
Qed.

(** [escapeStr] character by character: the two quotes gain a backslash,
    every other character, the backslash included, is copied. *)
Lemma escapeStr_cons (a : ascii) (s : string) :
  escapeStr (String a s)
  = if Ascii.eqb a squote then String backslash (String squote (escapeStr s))
    else if Ascii.eqb a dquote then String backslash (String dquote (escapeStr s))
    else String a (escapeStr s).
Proof.
  unfold escapeStr. cbn [replaceAll].
  destruct (Ascii.eqb_spec a squote) as [->|Hs].
  - lazy iota. rewrite replaceAll_app. reflexivity.
  - cbn [replaceAll]. destruct (Ascii.eqb a dquote); reflexivity.
Qed.

(** In a text without backslashes, [escapeStr] leaves no bare quote of
    either kind. *)
Lemma escapeStr_no_bare_quote (q : ascii) (s : string) :
  q = squote \/ q = dquote ->
  contains backslash s = false ->
  bareQuote false q (escapeStr s) = false.
Proof.
  intros Hq. induction s as [|a s IH]; [reflexivity|].
  intros Hbs. cbn [contains] in Hbs.
  destruct (Ascii.eqb_spec a backslash) as [->|Hne]; [discriminate|].
  cbn [orb] in Hbs. specialize (IH Hbs).
  rewrite escapeStr_cons.
  destruct (Ascii.eqb_spec a squote) as [->|Hs]; [exact IH|].
  destruct (Ascii.eqb_spec a dquote) as [->|Hd]; [exact IH|].
  cbn [bareQuote].
  destruct (Ascii.eqb_spec a backslash); [contradiction|].
  destruct (Ascii.eqb_spec a q) as [->|]; [|exact IH].
  destruct Hq; contradiction.
Qed.

(** A backslash before a quote is not escaped itself, so the quote that
    [escapeStr] protects becomes bare again. *)
Example escapeStr_backslash_quote :
  escapeStr (bs +:+ sq) = bs +:+ bs +:+ sq /\
  bareQuote false squote (escapeStr (bs +:+ sq)) = true.
Proof. split; reflexivity. Qed.

(** A quote that follows a character other than a backslash is bare,
    whatever precedes. *)
Lemma bareQuote_after (q c : ascii) (pre rest : string) :
  c <> backslash -> q <> backslash ->
  forall escaped,
    bareQuote escaped q (pre +:+ String c (String q rest)) = true.
Proof.
  intros Hc Hq. induction pre as [|a pre IH]; intros escaped.
  - change (bareQuote escaped q (String c (String q rest)) = true).
    cbn [bareQuote].
    destruct (Ascii.eqb_spec c backslash); [contradiction|].
    destruct (Ascii.eqb_spec q backslash); [contradiction|].
    rewrite Ascii.eqb_refl. cbn [orb].
    destruct escaped; [reflexivity|]. by rewrite orb_true_r.
  - rewrite append_cons. cbn [bareQuote]. destruct escaped; [apply IH|].
    destruct (Ascii.eqb a backslash); [apply IH|].
    rewrite IH. by rewrite orb_true_r.
Qed.

(** The XPath and ARIA texts built around a non-empty name delimit it with
    single quotes of their own; priority 3 places these texts between the
    single quotes of the selenium and webdriverio expressions. *)
Lemma buildXPath_bare_quote (role name tag : string) :
  truthy name = true ->
  bareQuote false squote (buildXPath role name tag) = true.
Proof.
  intros Hn. unfold buildXPath. rewrite Hn.
  change ("[@aria-label='" +:+ escapeStr name +:+ "' or @title='"
          +:+ escapeStr name +:+ "']")
    with ("[@aria-label" +:+
          String "=" (String squote (escapeStr name +:+ "' or @title='"
                                     +:+ escapeStr name +:+ "']"))).
  rewrite !append_assoc.
  apply bareQuote_after; discriminate.
Qed.

Lemma buildAriaSelector_bare_quote (role name : string) :
  truthy name = true ->
  bareQuote false squote (buildAriaSelector role name) = true.
Proof.
  intros Hn. unfold buildAriaSelector. rewrite Hn. cbn [negb].
  change ("[name='" +:+ escapeStr name +:+ "']")
    with ("[name" +:+ String "=" (String squote (escapeStr name +:+ "']"))).
  rewrite !append_assoc.
  apply bareQuote_after; discriminate.
Qed.

(** Hence every bundle of priority 3 carries a selenium and a webdriverio
    expression whose single-quoted argument is cut short by a quote of the
    text it wraps. *)
Lemma priority3_arguments_cut_short
    (toLowerCase : string -> string) (name role tagName : string)
    (attributes : option (list string)) (b : SuggestedSelectors) :
  firstTestId (parseAttrs attributes) TEST_ID_ATTRS = None ->
  stableId (parseAttrs attributes !! "id") = None ->
  truthy name && truthy role = true ->
  buildSelectorFromRawNode toLowerCase name role tagName attributes = Returned b ->
  exists xpath ariaText,
    selenium b = Some ("driver.find_element(By.XPATH, '" +:+ xpath +:+ "')") /\
    bareQuote false squote xpath = true /\
    webdriverio b = Some ("$('" +:+ ariaText +:+ "')") /\
    bareQuote false squote ariaText = true.
Proof.
  intros Ht Hid Hboth. unfold buildSelectorFromRawNode.
  rewrite Ht, Hid, Hboth. apply andb_prop in Hboth as [Hname _].
  destruct (buildPlaywrightByRole role name); [|discriminate].
  intros [= <-]. cbn.
  exists (buildXPath role name (toLowerCase tagName)), (buildAriaSelector role name).
  repeat split.
  - by apply buildXPath_bare_quote.
  - by apply buildAriaSelector_bare_quote.
Qed.

(** C1: the code at the name of the documentation.  The playwright
    expression escapes the name and is well quoted; the selenium and
    webdriverio expressions wrap, between single quotes, a text that has
    bare single quotes of its own.  For an attribute value, the playwright
    expression of priority 1 escapes it and the cypress expression of the
    same priority embeds it as it is. *)
Theorem escaping_missed_at_documented_name :
  let name := "Say " +:+ dq +:+ "hi" +:+ dq +:+ " there's" in
  let xpath := "//button[@aria-label='" +:+ escapeStr name
               +:+ "' or @title='" +:+ escapeStr name +:+ "']" in
  let ariaText := "role=button[name='" +:+ escapeStr name +:+ "']" in
  let attrSelector := "[data-testid=" +:+ dq +:+ "it's" +:+ dq +:+ "]" in
  (exists b,
     buildSelectorFromRawNode asciiToLowerCase name "button" "button" None
     = Returned b /\
     playwright b = Some ("page.getByRole('button', { name: '"
                          +:+ escapeStr name +:+ "' })") /\
     bareQuote false squote (escapeStr name) = false /\
     selenium b = Some ("driver.find_element(By.XPATH, '" +:+ xpath +:+ "')") /\
     bareQuote false squote xpath = true /\
     webdriverio b = Some ("$('" +:+ ariaText +:+ "')") /\
     bareQuote false squote ariaText = true) /\
  (exists b,
     buildSelectorFromRawNode asciiToLowerCase "" "" "div"
       (Some ["data-testid"; "it's"]) = Returned b /\
     playwright b = Some ("page.getByTestId('" +:+ escapeStr "it's" +:+ "')") /\
     bareQuote false squote (escapeStr "it's") = false /\
     cypress b = Some ("cy.get('" +:+ attrSelector +:+ "')") /\
     bareQuote false squote attrSelector = true).
Proof.
  split; eexists; (split; [reflexivity|]); repeat split; reflexivity.
Qed.

(** * Properties of the tree functions *)

Import JsNumber AxTree GetAccessibilityTree.

(** Induction over a summary tree: a property holds of every tree when it
    holds of a node as soon as it holds of the node's children. *)
Lemma summary_ind (P : AXNodeSummary.t -> Prop) :
  (forall node,
      (forall cs, AXNodeSummary.children node = Some cs -> Forall P cs) ->
      P node) ->
  forall node, P node.
Proof.
  intros step. fix IH 1. intros node. apply step.
  destruct node as [r n d v f di c e rq l b i [cs|]]; cbn; intros cs' [= <-].
  induction cs as [|child cs IHcs]; constructor; [apply IH | exact IHcs].
Qed.

Lemma children_withChildren (node : AXNodeSummary.t)
    (cs : option (list AXNodeSummary.t)) :
  AXNodeSummary.children (AXNodeSummary.withChildren node cs) = cs.
Proof. reflexivity. Qed.

Lemma withChildren_withChildren (node : AXNodeSummary.t)
    (cs cs' : option (list AXNodeSummary.t)) :
  AXNodeSummary.withChildren (AXNodeSummary.withChildren node cs) cs'
  = AXNodeSummary.withChildren node cs'.
Proof. reflexivity. Qed.

Lemma withChildren_same (node : AXNodeSummary.t) :
  AXNodeSummary.withChildren node (AXNodeSummary.children node) = node.
Proof. by destruct node. Qed.

(** ** [pruneToDepth] *)

Lemma pruneToDepth_unfold (node : AXNodeSummary.t) (maxDepth : number) :
  pruneToDepth node maxDepth
  = match AXNodeSummary.children node with
    | None => AXNodeSummary.withChildren node None
    | Some cs =>
        if le maxDepth (Int 1) then AXNodeSummary.withChildren node None
        else AXNodeSummary.withChildren node
               (Some (List.map (fun child => pruneToDepth child (pred maxDepth)) cs))
    end.
Proof. by destruct node. Qed.

Lemma childrenInvariant_unfold (node : AXNodeSummary.t) :
  childrenInvariant node
  = match AXNodeSummary.children node with
    | None => true
    | Some cs => (0 <? length cs)%nat && forallb childrenInvariant cs
    end.
Proof. by destruct node. Qed.

Lemma levels_unfold (node : AXNodeSummary.t) :
  levels node
  = match AXNodeSummary.children node with
    | None => 1%nat
    | Some cs => S (list_max (List.map levels cs))
    end.
Proof. by destruct node. Qed.

Lemma shapeOf_unfold (node : AXNodeSummary.t) :
  shapeOf node
  = match AXNodeSummary.children node with
    | None => Shape []
    | Some cs => Shape (List.map shapeOf cs)
    end.
Proof. by destruct node. Qed.

(** Pruning keeps the invariant of the tree it is given. *)
Lemma pruneToDepth_invariant (node : AXNodeSummary.t) :
  forall maxDepth,
    childrenInvariant node = true ->
    childrenInvariant (pruneToDepth node maxDepth) = true.
Proof.
  induction node as [node IH] using summary_ind. intros maxDepth.
  rewrite pruneToDepth_unfold, (childrenInvariant_unfold node).
  destruct (AXNodeSummary.children node) as [cs|] eqn:Hcs; [|reflexivity].
  destruct (le maxDepth (Int 1)); [reflexivity|].
  intros Hinv. apply andb_prop in Hinv as [Hlen Hall].
  rewrite childrenInvariant_unfold, children_withChildren.
  rewrite length_map, Hlen. cbn [andb].
  specialize (IH cs eq_refl). clear Hlen Hcs.
  induction IH as [|child cs Hchild _ IHcs]; [reflexivity|].
  cbn [forallb List.map] in *. apply andb_prop in Hall as [H1 H2].
  rewrite (Hchild _ H1). by apply IHcs.
Qed.

Lemma pruneToDepth_one (node : AXNodeSummary.t) :
  AXNodeSummary.children (pruneToDepth node (Int 1)) = None.
Proof.
  rewrite pruneToDepth_unfold.
  destruct (AXNodeSummary.children node); reflexivity.
Qed.

Lemma levels_positive (node : AXNodeSummary.t) : 1 <= levels node.
Proof. rewrite levels_unfold. destruct (AXNodeSummary.children node); lia. Qed.

Lemma levels_child (cs : list AXNodeSummary.t) :
  Forall (fun child => levels child <= list_max (List.map levels cs)) cs.
Proof.
  apply Forall_forall. intros child Hin.
  pose proof (proj1 (list_max_le (List.map levels cs) _) (Nat.le_refl _)) as H.
  rewrite List.Forall_forall in H. apply H, in_map, list_elem_of_In, Hin.
Qed.

(** A budget that the guard [maxDepth <= 1] lets through, once decremented,
    still covers one level less. *)
Lemma atLeast_pred (d : number) (n : nat) :
  le d (Int 1) = false -> atLeast d (S n) -> atLeast (pred d) n.
Proof.
  destruct d as [z| | |]; cbn; try done.
  intros Hz%Z.leb_gt Hn. unfold maxExact. lia.
Qed.

Lemma atLeast_two (d : number) (n : nat) :
  atLeast d (S n) -> 1 <= n -> le d (Int 1) = false.
Proof.
  destruct d as [z| | |]; cbn; try done.
  intros Hz Hn. apply Z.leb_gt. lia.
Qed.

Lemma atLeast_mono (d : number) (n k : nat) :
  atLeast d n -> k <= n -> atLeast d k.
Proof. destruct d as [z| | |]; cbn; try done. lia. Qed.

(** Pruning with a budget that covers every level keeps the shape. *)
Lemma pruneToDepth_shape (node : AXNodeSummary.t) :
  forall d, atLeast d (levels node) ->
            shapeOf (pruneToDepth node d) = shapeOf node.
Proof.
  induction node as [node IH] using summary_ind. intros d.
  rewrite pruneToDepth_unfold, levels_unfold, (shapeOf_unfold node).
  destruct (AXNodeSummary.children node) as [cs|] eqn:Hcs; [|reflexivity].
  specialize (IH cs eq_refl). intros Hd.
  destruct (le d (Int 1)) eqn:Hle.
  - destruct cs as [|child cs]; [reflexivity|].
    pose proof (levels_positive child) as Hpos.
    assert (Hmax : 1 <= list_max (List.map levels (child :: cs))).
    { cbn [List.map list_max fold_right]. lia. }
    rewrite (atLeast_two _ _ Hd Hmax) in Hle. discriminate.
  - rewrite shapeOf_unfold, children_withChildren. f_equal.
    rewrite List.map_map. apply atLeast_pred in Hd; [|exact Hle].
    pose proof (levels_child cs) as Hlv.
    clear Hcs Hle. revert Hd Hlv.
    generalize (list_max (List.map levels cs)) as k. intros k Hd Hlv.
    induction IH as [|child cs Hchild _ IHcs]; [reflexivity|].
    apply Forall_cons in Hlv as [Hk Hlv]. cbn [List.map].
    rewrite Hchild by (eapply atLeast_mono; eauto).
    by rewrite IHcs.
Qed.

(** On a tree that satisfies the invariant, such a pruning is the
    identity. *)
Lemma pruneToDepth_identity (node : AXNodeSummary.t) :
  forall d, childrenInvariant node = true -> atLeast d (levels node) ->
            pruneToDepth node d = node.
Proof.
  induction node as [node IH] using summary_ind. intros d.
  rewrite pruneToDepth_unfold, levels_unfold, (childrenInvariant_unfold node).
  destruct (AXNodeSummary.children node) as [cs|] eqn:Hcs.
  2:{ intros _ _. rewrite <- Hcs. apply withChildren_same. }
  specialize (IH cs eq_refl). intros Hinv Hd.
  apply andb_prop in Hinv as [Hlen Hall].
  destruct (le d (Int 1)) eqn:Hle.
  - destruct cs as [|child cs]; [discriminate|].
    pose proof (levels_positive child) as Hpos.
    assert (Hmax : 1 <= list_max (List.map levels (child :: cs))).
    { cbn [List.map list_max fold_right]. lia. }
    rewrite (atLeast_two _ _ Hd Hmax) in Hle. discriminate.
  - apply atLeast_pred in Hd; [|exact Hle].
    assert (Hmap : List.map (fun child => pruneToDepth child (pred d)) cs = cs).
    { pose proof (levels_child cs) as Hlv.
      clear Hcs Hle Hlen. revert Hd Hlv.
      generalize (list_max (List.map levels cs)) as k. intros k Hd Hlv.
      induction IH as [|child cs Hchild _ IHcs]; [reflexivity|].
      apply Forall_cons in Hlv as [Hk Hlv]. cbn [List.map forallb] in *.
      apply andb_prop in Hall as [H1 H2].
      rewrite Hchild by (try assumption; eapply atLeast_mono; eauto).
      by rewrite IHcs. }
    rewrite Hmap, <- Hcs. apply withChildren_same.
Qed.

(** C9: pruning to depth 1 removes the [children] field of every tree; a
    budget at least the number of levels of the tree leaves its shape
    unchanged, and returns the tree itself when the tree satisfies the
    invariant of summaries. *)
Theorem pruneToDepth_depth_semantics (node : AXNodeSummary.t) (d : number) :
  AXNodeSummary.children (pruneToDepth node (Int 1)) = None /\
  (atLeast d (levels node) ->
   shapeOf (pruneToDepth node d) = shapeOf node /\
   (childrenInvariant node = true -> pruneToDepth node d = node)).
Proof.
  split; [apply pruneToDepth_one|]. intros Hd. split.
  - by apply pruneToDepth_shape.
  - intros Hinv. by apply pruneToDepth_identity.
Qed.

(** ** [assembleTree] *)

Section Assemble.

Variable index : gmap string CdpAXNode.t.

(** Each assembled child is the result of the recursive call on a child
    identifier that the index resolves to a node that is not ignored. *)
Lemma assembleChildren_elem
    (recurse : CdpAXNode.t -> option AXNodeSummary.t) (ids : list string) :
  forall cs,
    assembleChildren recurse index ids = Some cs ->
    forall c, c ∈ cs ->
      exists childId child,
        childId ∈ ids /\ index !! childId = Some child /\
        CdpAXNode.ignored child = false /\ recurse child = Some c.
Proof.
  induction ids as [|childId ids IH]; intros cs Hcs c Hc.
  - injection Hcs as <-. by apply elem_of_nil in Hc.
  - cbn [assembleChildren] in Hcs.
    assert (Hrest : forall cs', assembleChildren recurse index ids = Some cs' ->
                      c ∈ cs' ->
                      exists childId0 child,
                        childId0 ∈ childId :: ids /\ index !! childId0 = Some child /\
                        CdpAXNode.ignored child = false /\ recurse child = Some c).
    { intros cs' Hcs' Hc'. destruct (IH cs' Hcs' c Hc') as (i & ch & Hi & H).
      exists i, ch. split; [by right | exact H]. }
    destruct (index !! childId) as [child|] eqn:Hlook; [|eauto].
    destruct (CdpAXNode.ignored child) eqn:Hign; [eauto|].
    destruct (recurse child) as [summary|] eqn:Hrec; [|discriminate].
    destruct (assembleChildren recurse index ids) as [more|]; [|discriminate].
    injection Hcs as <-. apply elem_of_cons in Hc as [-> | Hc]; [|eauto].
    exists childId, child. repeat split; try assumption. by left.
Qed.

(** The loop returns as soon as every recursive call does. *)
Lemma assembleChildren_total
    (recurse : CdpAXNode.t -> option AXNodeSummary.t) (ids : list string) :
  (forall child, is_Some (recurse child)) ->
  is_Some (assembleChildren recurse index ids).
Proof.
  intros Htotal. induction ids as [|childId ids [more IH]]; [by eexists|].
  cbn [assembleChildren]. rewrite IH.
  destruct (index !! childId) as [child|]; [|by eexists].
  destruct (CdpAXNode.ignored child); [by eexists|].
  destruct (Htotal child) as [summary ->]. by eexists.
Qed.

Lemma assembleChildren_mono
    (recurse recurse' : CdpAXNode.t -> option AXNodeSummary.t)
    (ids : list string) :
  (forall child s, recurse child = Some s -> recurse' child = Some s) ->
  forall cs, assembleChildren recurse index ids = Some cs ->
             assembleChildren recurse' index ids = Some cs.
Proof.
  intros Hle. induction ids as [|childId ids IH]; intros cs Hcs; [exact Hcs|].
  cbn [assembleChildren] in *.
  destruct (index !! childId) as [child|]; [|by apply IH].
  destruct (CdpAXNode.ignored child); [by apply IH|].
  destruct (recurse child) as [summary|] eqn:Hrec; [|discriminate].
  rewrite (Hle _ _ Hrec).
  destruct (assembleChildren recurse index ids) as [more|]; [|discriminate].
  by rewrite (IH more eq_refl).
Qed.

(** The two ways in which a call returns: the bare summary of the node, or
    that summary with the non-empty list of assembled children. *)
Lemma assembleTree_inv (fuel : nat) (node : CdpAXNode.t)
    (depth maxDepth : number) (t : AXNodeSummary.t) :
  assembleTree fuel node index depth maxDepth = Some t ->
  t = cdpAXNodeToSummary node \/
  exists fuel' ids cs,
    fuel = S fuel' /\ CdpAXNode.childIds node = Some ids /\
    ge depth maxDepth = false /\
    assembleChildren
      (fun child => assembleTree fuel' child index (succ depth) maxDepth)
      index ids = Some cs /\
    cs <> [] /\
    t = AXNodeSummary.withChildren (cdpAXNodeToSummary node) (Some cs).
Proof.
  destruct fuel as [|fuel']; [discriminate|]. cbn [assembleTree].
  destruct (CdpAXNode.childIds node) as [ids|]; [|intros [= <-]; by left].
  destruct (ge depth maxDepth) eqn:Hge; [intros [= <-]; by left|].
  cbn [orb]. destruct (Nat.eqb (length ids) 0); [intros [= <-]; by left|].
  destruct (assembleChildren _ index ids) as [cs|] eqn:Hcs; [|discriminate].
  destruct cs as [|c cs]; [intros [= <-]; by left|].
  cbn. intros [= <-]. right. exists fuel', ids, (c :: cs).
  repeat split; try assumption; done.
Qed.

(** More fuel does not change a result. *)
Lemma assembleTree_fuel_mono (fuel : nat) :
  forall fuel' node depth maxDepth t,
    fuel <= fuel' ->
    assembleTree fuel node index depth maxDepth = Some t ->
    assembleTree fuel' node index depth maxDepth = Some t.
Proof.
  induction fuel as [|fuel IH]; intros fuel' node depth maxDepth t Hle Ht;
    [discriminate|].
  destruct fuel' as [|fuel']; [lia|]. cbn [assembleTree] in *.
  destruct (CdpAXNode.childIds node) as [ids|]; [|exact Ht].
  destruct (ge depth maxDepth || Nat.eqb (length ids) 0); [exact Ht|].
  destruct (assembleChildren _ index ids) as [cs|] eqn:Hcs; [|discriminate].
  erewrite assembleChildren_mono; [exact Ht | | exact Hcs].
  intros child s Hs. cbn beta in *. apply (IH fuel'); [lia | exact Hs].
Qed.

(** With integer depths inside the exact range the depth limit bounds the
    recursion, on every index, cyclic or not. *)
Lemma assembleTree_returns_within_budget (fuel : nat) :
  forall node (d m : Z),
    (m <= maxExact)%Z ->
    (Z.to_nat (m - d) < fuel)%nat ->
    is_Some (assembleTree fuel node index (Int d) (Int m)).
Proof.
  induction fuel as [|fuel IH]; intros node d m Hm Hfuel; [lia|].
  cbn [assembleTree].
  destruct (CdpAXNode.childIds node) as [ids|]; [|by eexists].
  destruct (ge (Int d) (Int m)) eqn:Hge; [by eexists|]. cbn [orb].
  destruct (Nat.eqb (length ids) 0); [by eexists|].
  cbn in Hge. apply Z.leb_gt in Hge.
  destruct (assembleChildren_total
              (fun child => assembleTree fuel child index (succ (Int d)) (Int m)) ids)
    as [cs ->].
  - intros child. cbn [succ]. rewrite Z.min_l by lia. apply IH; lia.
  - destruct (0 <? length cs)%nat; by eexists.
Qed.

(** Every node of an assembled tree satisfies the children invariant. *)
Lemma assembleTree_invariant (fuel : nat) :
  forall node depth maxDepth t,
    assembleTree fuel node index depth maxDepth = Some t ->
    childrenInvariant t = true.
Proof.
  induction fuel as [|fuel IH]; intros node depth maxDepth t Ht; [discriminate|].
  apply assembleTree_inv in Ht
    as [-> | (fuel' & ids & cs & [= <-] & _ & _ & Hcs & Hne & ->)];
    [reflexivity|].
  rewrite childrenInvariant_unfold, children_withChildren.
  apply andb_true_intro. split.
  - destruct cs; [contradiction | reflexivity].
  - apply forallb_forall. intros c Hc%list_elem_of_In.
    destruct (assembleChildren_elem _ _ _ Hcs c Hc) as (i & child & _ & _ & _ & Hrec).
    exact (IH _ _ _ _ Hrec).
Qed.

Lemma visited_trans (root mid n : CdpAXNode.t) :
  visited index root mid -> visited index mid n -> visited index root n.
Proof.
  intros Hmid Hn. induction Hn as [|parent child ids childId _ IH Hids Hin Hlook Hign].
  - exact Hmid.
  - eapply visited_child; eauto.
Qed.

Lemma visited_not_ignored (root n : CdpAXNode.t) :
  CdpAXNode.ignored root = false -> visited index root n ->
  CdpAXNode.ignored n = false.
Proof. intros Hroot Hn. destruct Hn; assumption. Qed.

Lemma allNodes_unfold (t : AXNodeSummary.t) :
  allNodes t
  = t :: match AXNodeSummary.children t with
         | None => []
         | Some cs => flat_map allNodes cs
         end.
Proof. by destruct t. Qed.

(** Every node of an assembled tree is the summary of a raw node that the
    walk visited from the root. *)
Lemma assembleTree_visited (fuel : nat) :
  forall node depth maxDepth t,
    assembleTree fuel node index depth maxDepth = Some t ->
    forall s, s ∈ allNodes t ->
      exists n, visited index node n /\
                AXNodeSummary.withChildren s None = cdpAXNodeToSummary n.
Proof.
  induction fuel as [|fuel IH]; intros node depth maxDepth t Ht s Hs;
    [discriminate|].
  apply assembleTree_inv in Ht
    as [-> | (fuel' & ids & cs & [= <-] & Hids & _ & Hcs & Hne & ->)].
  - cbn in Hs. apply list_elem_of_singleton in Hs as ->.
    exists node. split; [constructor | reflexivity].
  - rewrite allNodes_unfold, children_withChildren in Hs.
    apply elem_of_cons in Hs as [-> | Hs].
    + exists node. split; [constructor | reflexivity].
    + apply list_elem_of_In, in_flat_map in Hs as (c & Hc%list_elem_of_In & Hs).
      destruct (assembleChildren_elem _ _ _ Hcs c Hc)
        as (childId & child & Hin & Hlook & Hign & Hrec).
      destruct (IH _ _ _ _ Hrec s (proj2 (list_elem_of_In _ _) Hs))
        as (n & Hvis & Heq).
      exists n. split; [|exact Heq].
      apply (visited_trans node child n); [|exact Hvis].
      eapply visited_child; eauto. constructor.
Qed.

End Assemble.

(** ** [buildTreeIndex] and the filtered node list *)

Lemma buildTreeIndex_fold (nodes : list CdpAXNode.t) :
  forall (acc : gmap string CdpAXNode.t) (k : string) (n : CdpAXNode.t),
    fold_left (fun index node => <[CdpAXNode.nodeId node := node]> index) nodes acc
      !! k = Some n ->
    (n ∈ nodes /\ CdpAXNode.nodeId n = k) \/ acc !! k = Some n.
Proof.
  induction nodes as [|node nodes IH]; intros acc k n H; [by right|].
  cbn [fold_left] in H. apply IH in H as [[Hin Hk] | H].
  - left. split; [by right | exact Hk].
  - destruct (decide (CdpAXNode.nodeId node = k)) as [Heq | Hne].
    + rewrite Heq, lookup_insert_eq in H. injection H as <-.
      left. split; [by left | exact Heq].
    + rewrite lookup_insert_ne in H by exact Hne. by right.
Qed.

(** An entry of the index is a node of the list, filed under its own
    identifier. *)
Lemma buildTreeIndex_lookup (nodes : list CdpAXNode.t) (k : string)
    (n : CdpAXNode.t) :
  buildTreeIndex nodes !! k = Some n -> n ∈ nodes /\ CdpAXNode.nodeId n = k.
Proof.
  intros H. apply buildTreeIndex_fold in H as [H | H]; [exact H|].
  by rewrite lookup_empty in H.
Qed.

Lemma elem_of_filterNodes (nodes : list CdpAXNode.t) (n : CdpAXNode.t) :
  n ∈ filterNodes true nodes <-> n ∈ nodes /\ CdpAXNode.ignored n = false.
Proof.
  cbn [filterNodes]. split.
  - intros H%list_elem_of_In%filter_In. destruct H as [Hin Hign].
    split; [by apply list_elem_of_In | by apply negb_true_iff].
  - intros [Hin Hign]. apply list_elem_of_In, filter_In.
    split; [by apply list_elem_of_In | by apply negb_true_iff].
Qed.

Lemma visited_in_list (nodes : list CdpAXNode.t) (root n : CdpAXNode.t) :
  root ∈ nodes -> visited (buildTreeIndex nodes) root n -> n ∈ nodes.
Proof.
  intros Hroot Hn. destruct Hn as [|parent child ids childId _ _ _ Hlook _].
  - exact Hroot.
  - by apply buildTreeIndex_lookup in Hlook as [? _].
Qed.

Lemma nodeId_injective (nodes : list CdpAXNode.t) (a b : CdpAXNode.t) :
  NoDup (List.map CdpAXNode.nodeId nodes) -> a ∈ nodes -> b ∈ nodes ->
  CdpAXNode.nodeId a = CdpAXNode.nodeId b -> a = b.
Proof.
  induction nodes as [|n nodes IH]; intros Hnd Ha Hb Heq.
  - by apply elem_of_nil in Ha.
  - cbn [List.map] in Hnd. apply NoDup_cons in Hnd as [Hn Hnd].
    assert (Hmem : forall x, x ∈ nodes ->
                     CdpAXNode.nodeId x ∈ List.map CdpAXNode.nodeId nodes).
    { intros x Hx. apply list_elem_of_In, in_map, list_elem_of_In, Hx. }
    apply elem_of_cons in Ha as [-> | Ha]; apply elem_of_cons in Hb as [-> | Hb].
    + reflexivity.
    + exfalso. apply Hn. rewrite Heq. by apply Hmem.
    + exfalso. apply Hn. rewrite <- Heq. by apply Hmem.
    + by apply IH.
Qed.

(** ** The claims on the tree functions *)

(** C6: the recursion has no cycle guard.  A node that lists itself as its
    child, assembled with an unbounded [maxDepth], never meets the depth
    limit and the call does not return, whatever the bound on the nesting
    of calls. *)
Theorem assembleTree_cycle_diverges :
  exists (index : gmap string CdpAXNode.t) (node : CdpAXNode.t)
         (depth maxDepth : number),
    index !! CdpAXNode.nodeId node = Some node /\
    CdpAXNode.childIds node = Some [CdpAXNode.nodeId node] /\
    CdpAXNode.ignored node = false /\
    forall fuel, assembleTree fuel node index depth maxDepth = None.
Proof.
  set (node := plainNode "1" false (Some "1") (Some ["1"])).
  exists (buildTreeIndex [node]), node, (Int 0), Infinity.
  repeat split; try reflexivity.
  assert (Hloop : forall fuel z,
             assembleTree fuel node (buildTreeIndex [node]) (Int z) Infinity = None).
  { induction fuel as [|fuel IH]; intros z; [reflexivity|].
    cbn [assembleTree]. change (CdpAXNode.childIds node) with (Some ["1"]).
    cbn [ge le orb length Nat.eqb assembleChildren].
    change (buildTreeIndex [node] !! "1") with (Some node).
    change (CdpAXNode.ignored node) with false. cbn [succ].
    by rewrite IH. }
  intros fuel. apply Hloop.
Qed.

(** C7: the summary of a raw node has no [children] field; every tree
    returned by [assembleTree] satisfies the children invariant at each of
    its nodes, and so does every pruning of it; in general [pruneToDepth]
    keeps the invariant of the summary it is given. *)
Theorem children_absent_or_nonempty
    (fuel : nat) (node : CdpAXNode.t) (index : gmap string CdpAXNode.t)
    (depth maxDepth : number) (t : AXNodeSummary.t) :
  assembleTree fuel node index depth maxDepth = Some t ->
  AXNodeSummary.children (cdpAXNodeToSummary node) = None /\
  childrenInvariant (cdpAXNodeToSummary node) = true /\
  childrenInvariant t = true /\
  (forall d, childrenInvariant (pruneToDepth t d) = true) /\
  (forall s d, childrenInvariant s = true ->
               childrenInvariant (pruneToDepth s d) = true).
Proof.
  intros Ht. pose proof (assembleTree_invariant _ _ _ _ _ _ Ht) as Hinv.
  repeat split; try done.
  - intros d. by apply pruneToDepth_invariant.
  - intros s d. apply pruneToDepth_invariant.
Qed.

(** C8: in a tree assembled from a root of the filtered node list, over the
    index of that list, every node is the summary of a node of the input
    that is not ignored and that the walk reached from the root through
    nodes that are not ignored; when the identifiers of the input are
    pairwise distinct, no node of the tree carries the identifier of an
    ignored node, nor of a node that the walk cannot reach without passing
    through an ignored one. *)
Theorem ignored_nodes_excluded
    (nodes : list CdpAXNode.t) (root : CdpAXNode.t) (fuel : nat)
    (depth maxDepth : number) (tree : AXNodeSummary.t) :
  root ∈ filterNodes true nodes ->
  assembleTree fuel root (buildTreeIndex (filterNodes true nodes)) depth maxDepth
  = Some tree ->
  forall s, s ∈ allNodes tree ->
    (exists n,
        n ∈ nodes /\ CdpAXNode.ignored n = false /\
        visited (buildTreeIndex (filterNodes true nodes)) root n /\
        AXNodeSummary.withChildren s None = cdpAXNodeToSummary n) /\
    (NoDup (List.map CdpAXNode.nodeId nodes) ->
     forall n, n ∈ nodes ->
               CdpAXNode.ignored n = true \/
               ~ visited (buildTreeIndex (filterNodes true nodes)) root n ->
               AXNodeSummary.nodeId s <> CdpAXNode.nodeId n).
Proof.
  intros Hroot Ht s Hs.
  destruct (assembleTree_visited _ _ _ _ _ _ Ht s Hs) as (n & Hvis & Heq).
  pose proof (visited_in_list _ _ _ Hroot Hvis) as Hn.
  apply elem_of_filterNodes in Hn as [Hn Hign].
  split; [by exists n|].
  intros Hnd n' Hn' Hout Hid.
  assert (Hs_id : AXNodeSummary.nodeId s = CdpAXNode.nodeId n).
  { change (AXNodeSummary.nodeId s)
      with (AXNodeSummary.nodeId (AXNodeSummary.withChildren s None)).
    by rewrite Heq. }
  rewrite Hs_id in Hid.
  pose proof (nodeId_injective nodes n n' Hnd Hn Hn' Hid) as <-.
  destruct Hout as [Hign' | Hnot]; [congruence | contradiction].
Qed.

(** The handler passes an integer [maxDepth]; within the exact range its
    tree construction returns. *)
Lemma fullTree_returns (interestingOnly : bool) (m : Z)
    (nodes : list CdpAXNode.t) :
  (0 <= m <= maxExact)%Z ->
  is_Some (fullTree (S (Z.to_nat m)) interestingOnly (Int m) nodes).
Proof.
  intros Hm. unfold fullTree.
  destruct (findRoot _) as [root|]; [|by eexists].
  destruct (assembleTree_returns_within_budget
              (buildTreeIndex (filterNodes interestingOnly nodes))
              (S (Z.to_nat m)) root 0 m) as [t ->]; [lia | lia |].
  by eexists.
Qed.

(** ** Concrete runs of the tree functions *)

Lemma children_absent_or_nonempty_witness :
  let root := plainNode "1" false None (Some ["2"; "3"; "9"]) in
  let index :=
    buildTreeIndex
      [root; plainNode "2" false (Some "1") (Some []);
       plainNode "3" true (Some "1") None] in
  exists t,
    assembleTree 3 root index (Int 0) (Int 5) = Some t /\
    AXNodeSummary.children (cdpAXNodeToSummary root) = None /\
    childrenInvariant t = true /\
    (forall d, childrenInvariant (pruneToDepth t d) = true).
Proof.
  intros root index. eexists. split; [vm_compute; reflexivity|].
  destruct (children_absent_or_nonempty 3 root index (Int 0) (Int 5) _ eq_refl)
    as (H1 & _ & H3 & H4 & _).
  exact (conj H1 (conj H3 H4)).
Defined.

Lemma ignored_nodes_excluded_witness :
  let root := plainNode "1" false None (Some ["2"; "3"]) in
  let nodes :=
    [root; plainNode "2" false (Some "1") None;
     plainNode "3" true (Some "1") (Some ["4"]);
     plainNode "4" false (Some "3") None] in
  findRoot (filterNodes true nodes) = Some root /\
  exists tree,
    assembleTree 3 root (buildTreeIndex (filterNodes true nodes)) (Int 0) (Int 5)
    = Some tree /\
    List.map AXNodeSummary.nodeId (allNodes tree) = ["1"; "2"] /\
    forall s, s ∈ allNodes tree ->
      AXNodeSummary.nodeId s <> "3" /\
      exists n, n ∈ nodes /\ CdpAXNode.ignored n = false /\
                AXNodeSummary.withChildren s None = cdpAXNodeToSummary n.
Proof.
  intros root nodes. split; [vm_compute; reflexivity|].
  eexists. split; [vm_compute; reflexivity|]. split; [reflexivity|].
  intros s Hs.
  destruct (ignored_nodes_excluded nodes root 3 (Int 0) (Int 5) _
              (list_elem_of_here _ _) eq_refl s Hs)
    as ((n & Hn & Hign & _ & Heq) & Hid).
  split; [|by exists n].
  assert (Hnd : NoDup (List.map CdpAXNode.nodeId nodes)).
  { apply (bool_decide_unpack _). vm_compute. exact I. }
  apply (Hid Hnd (plainNode "3" true (Some "1") (Some ["4"])));
    [|left; reflexivity].
  right. right. left.
Defined.

Lemma pruneToDepth_depth_semantics_witness :
  let root := plainNode "1" false None (Some ["2"; "3"]) in
  let index :=
    buildTreeIndex
      [root; plainNode "2" false (Some "1") None;
       plainNode "3" false (Some "1") None] in
  exists t,
    assembleTree 3 root index (Int 0) (Int 5) = Some t /\
    levels t = 2 /\
    AXNodeSummary.children (pruneToDepth t (Int 1)) = None /\
    shapeOf (pruneToDepth t (Int 2)) = shapeOf t /\
    pruneToDepth t (Int 2) = t.
Proof.
  intros root index. eexists. split; [vm_compute; reflexivity|].
  split; [reflexivity|].
  match goal with
  | |- AXNodeSummary.children (pruneToDepth ?t _) = _ /\ _ =>
      destruct (pruneToDepth_depth_semantics t (Int 2)) as [H1 H2]
  end.
  split; [exact H1|].
  destruct H2 as [Hshape Hid]; [vm_compute; discriminate|].
  split; [exact Hshape | apply Hid; reflexivity].
Defined.

(** End-to-end scenario A of the documentation: one button, no parent. *)
Example scenario_A :
  let button :=
    {| CdpAXNode.nodeId := "1"; CdpAXNode.ignored := false;
       CdpAXNode.ignoredReasons := None;
       CdpAXNode.role :=
         Some {| CdpAXValue.type := "role"; CdpAXValue.value := Some (JStr "button") |};
       CdpAXNode.name :=
         Some {| CdpAXValue.type := "computedString";
                 CdpAXValue.value := Some (JStr "Submit") |};
       CdpAXNode.description := None; CdpAXNode.value := None;
       CdpAXNode.properties := None; CdpAXNode.parentId := None;
       CdpAXNode.childIds := None; CdpAXNode.backendDOMNodeId := Some 10%Z;
       CdpAXNode.frameId := None |} in
  exists tree,
    fullTree 6 true (Int 5) [button] = Some (TreeBuilt tree 1) /\
    AXNodeSummary.children tree = None /\
    AXNodeSummary.role tree = JStr "button" /\
    AXNodeSummary.name tree = JStr "Submit".
Proof. intros button. eexists. split; [vm_compute; reflexivity|]. by repeat split. Qed.

(** With a finite depth limit the self-referencing node of C6 is assembled
    into a chain that stops at the limit. *)
Example cycle_bounded_by_depth_limit :
  let node := plainNode "1" false (Some "1") (Some ["1"]) in
  exists t,
    assembleTree 4 node (buildTreeIndex [node]) (Int 0) (Int 3) = Some t /\
    levels t = 4 /\
    List.map AXNodeSummary.nodeId (allNodes t) = ["1"; "1"; "1"; "1"].
Proof. intros node. eexists. split; [vm_compute; reflexivity|]. by split. Qed.

(** ** The handler: assembly followed by pruning *)

Lemma findRoot_elem (filtered : list CdpAXNode.t) (root : CdpAXNode.t) :
  findRoot filtered = Some root -> root ∈ filtered.
Proof.
  unfold findRoot. intros H. apply find_some in H as [H _].
  by apply list_elem_of_In.
Qed.

(** Every node of a pruned tree is a node of the tree, up to its
    [children] field. *)
Lemma pruneToDepth_nodes (t : AXNodeSummary.t) :
  forall d s,
    s ∈ allNodes (pruneToDepth t d) ->
    exists s0, s0 ∈ allNodes t /\
               AXNodeSummary.withChildren s None = AXNodeSummary.withChildren s0 None.
Proof.
  induction t as [t IH] using summary_ind. intros d s.
  rewrite pruneToDepth_unfold, (allNodes_unfold t).
  assert (Hstrip : s ∈ allNodes (AXNodeSummary.withChildren t None) ->
            exists s0, s0 ∈ t :: match AXNodeSummary.children t with
                               | Some cs => flat_map allNodes cs
                               | None => []
                               end /\
                       AXNodeSummary.withChildren s None
                       = AXNodeSummary.withChildren s0 None).
  { rewrite allNodes_unfold, children_withChildren.
    intros ->%list_elem_of_singleton. exists t. split; [by left | reflexivity]. }
  destruct (AXNodeSummary.children t) as [cs|] eqn:Hcs; [|exact Hstrip].
  destruct (le d (Int 1)); [exact Hstrip|]. clear Hstrip.
  rewrite allNodes_unfold, children_withChildren.
  intros [-> | Hs]%elem_of_cons.
  - exists t. split; [by left | reflexivity].
  - apply list_elem_of_In, in_flat_map in Hs as (c' & Hc' & Hs).
    apply in_map_iff in Hc' as (c & <- & Hc).
    specialize (IH cs eq_refl). rewrite List.Forall_forall in IH.
    destruct (IH c Hc (pred d) s (proj2 (list_elem_of_In _ _) Hs))
      as (s0 & Hs0 & Heq).
    exists s0. split; [|exact Heq]. right.
    apply list_elem_of_In, in_flat_map. exists c.
    split; [exact Hc | by apply list_elem_of_In].
Qed.

(** With [interestingOnly], every node of the tree the handler returns is
    the summary of an input node that is not ignored. *)
Lemma fullTree_excludes_ignored (fuel : nat) (maxDepth : number)
    (nodes : list CdpAXNode.t) (tree : AXNodeSummary.t) (count : nat) :
  fullTree fuel true maxDepth nodes = Some (TreeBuilt tree count) ->
  forall s, s ∈ allNodes tree ->
    exists n, n ∈ nodes /\ CdpAXNode.ignored n = false /\
              AXNodeSummary.withChildren s None = cdpAXNodeToSummary n.
Proof.
  unfold fullTree.
  destruct (findRoot _) as [root|] eqn:Hroot; [|discriminate].
  destruct (assembleTree _ _ _ _ _) as [assembled|] eqn:Ht; [|discriminate].
  intros [= <- _] s Hs. apply findRoot_elem in Hroot.
  destruct (pruneToDepth_nodes _ _ _ Hs) as (s0 & Hs0 & Heq).
  destruct (assembleTree_visited _ _ _ _ _ _ Ht s0 Hs0) as (n & Hvis & Hn).
  pose proof (visited_in_list _ _ _ Hroot Hvis) as Hin.
  apply elem_of_filterNodes in Hin as [Hin Hign].
  exists n. repeat split; try assumption.
  rewrite Heq. exact Hn.
Qed.

(** * Further properties of the selector generator *)

(** ** Attribute lookup *)





(** ** [escapeStr] *)

Lemma escapeStr_length_le (s : string) :
  String.length s <= String.length (escapeStr s).
Proof.
  induction s as [|a s IH]; [reflexivity|]. rewrite escapeStr_cons.
  destruct (Ascii.eqb a squote); [cbn; lia|].
  destruct (Ascii.eqb a dquote); cbn; lia.
Qed.

Lemma escapeStr_length_lt (q : ascii) (s : string) :
  q = squote \/ q = dquote -> contains q s = true ->
  String.length s < String.length (escapeStr s).
Proof.
  intros Hq. induction s as [|a s IH]; [discriminate|].
  cbn [contains]. rewrite escapeStr_cons. intros Hc.
  pose proof (escapeStr_length_le s) as Hle.
  destruct (Ascii.eqb_spec a squote) as [->|Hs]; [cbn; lia|].
  destruct (Ascii.eqb_spec a dquote) as [->|Hd]; [cbn; lia|].
  destruct (Ascii.eqb_spec a q) as [->|Hne]; [destruct Hq; congruence|].
  cbn [orb] in Hc. specialize (IH Hc). cbn. lia.
Qed.

(** X2: [escapeStr] returns its argument unchanged exactly when the argument
    contains neither quote character. *)
Theorem escapeStr_unchanged_iff (s : string) :
  escapeStr s = s <-> contains squote s = false /\ contains dquote s = false.
Proof.
  split.
  - intros Heq.
    destruct (contains squote s) eqn:Hs.
    { pose proof (escapeStr_length_lt squote s (or_introl eq_refl) Hs) as Hlt.
      rewrite Heq in Hlt. lia. }
    destruct (contains dquote s) eqn:Hd; [|done].
    pose proof (escapeStr_length_lt dquote s (or_intror eq_refl) Hd) as Hlt.
    rewrite Heq in Hlt. lia.
  - intros [Hs Hd]. induction s as [|a s IH]; [reflexivity|].
    cbn [contains] in Hs, Hd. apply orb_false_elim in Hs as [Hs1 Hs2].
    apply orb_false_elim in Hd as [Hd1 Hd2].
    rewrite escapeStr_cons, Hs1, Hd1. by rewrite IH.
Qed.

(** X3: In a text without backslashes, [escapeStr] leaves no quote of either
    kind outside a backslash escape; a backslash in the text is copied as
    it is and can undo the protection. *)
Theorem escapeStr_protects_quotes (q : ascii) (s : string) :
  q = squote \/ q = dquote ->
  contains backslash s = false ->
  bareQuote false q (escapeStr s) = false.
Proof. apply escapeStr_no_bare_quote. Qed.

Lemma escapeStr_protects_quotes_witness :
  bareQuote false squote (escapeStr "it's") = false.
Proof.
  apply (escapeStr_protects_quotes squote "it's"); [by left | reflexivity].
Defined.

(** ** The unstable-id pattern ignores letter case *)

Lemma lowerAscii_idempotent (c : ascii) : lowerAscii (lowerAscii c) = lowerAscii c.
Proof. destruct c as [[] [] [] [] [] [] [] []]; reflexivity. Qed.

Lemma isDigit_lowerAscii (c : ascii) : isDigit (lowerAscii c) = isDigit c.
Proof. destruct c as [[] [] [] [] [] [] [] []]; reflexivity. Qed.

Lemma isHexDigit_lowerAscii (c : ascii) : isHexDigit (lowerAscii c) = isHexDigit c.
Proof. destruct c as [[] [] [] [] [] [] [] []]; reflexivity. Qed.

Lemma matchLiteral_lower (lit s : string) :
  matchLiteral lit (asciiToLowerCase s) = matchLiteral lit s.
Proof.
  revert s. induction lit as [|a lit IH]; intros s; [reflexivity|].
  destruct s as [|b s]; [reflexivity|]. cbn [asciiToLowerCase matchLiteral].
  by rewrite lowerAscii_idempotent, IH.
Qed.

Lemma matchHexThen_lower (n : nat) (lit s : string) :
  matchHexThen n lit (asciiToLowerCase s) = matchHexThen n lit s.
Proof.
  revert s. induction n as [|n IH]; intros s; [apply matchLiteral_lower|].
  destruct s as [|c s]; [reflexivity|]. cbn [asciiToLowerCase matchHexThen].
  by rewrite isHexDigit_lowerAscii, IH.
Qed.

(** X4: An id and its lower-cased form are classified alike. *)
Theorem UNSTABLE_ID_RE_ignores_case (s : string) :
  UNSTABLE_ID_RE (asciiToLowerCase s) = UNSTABLE_ID_RE s.
Proof.
  unfold UNSTABLE_ID_RE.
  rewrite !matchLiteral_lower, matchHexThen_lower.
  assert (Hdigit : matchDigit (asciiToLowerCase s) = matchDigit s).
  { destruct s as [|c s]; [reflexivity|]. apply isDigit_lowerAscii. }
  by rewrite Hdigit.
Qed.

(** ** [buildSemanticCss] *)

Lemma truthy_append (a b : string) : truthy (a +:+ b) = truthy a || truthy b.
Proof. by destruct a. Qed.

Lemma orElse_semanticCss (tag : string) (attrs : gmap string string) :
  orElse (buildSemanticCss tag attrs) tag = buildSemanticCss tag attrs.
Proof.
  assert (Hprefix : buildSemanticCss tag attrs
                    = tag +:+ join (semanticParts attrs useful)) by reflexivity.
  unfold orElse. rewrite Hprefix, truthy_append.
  destruct tag as [|c tag]; [|reflexivity]. cbn [truthy orb].
  change ("" +:+ join (semanticParts attrs useful))
    with (join (semanticParts attrs useful)).
  destruct (join (semanticParts attrs useful)); reflexivity.
Qed.

(** X5: The semantic CSS text starts with the tag, so the fallback [|| tag]
    of the builder never replaces it. *)
Theorem buildSemanticCss_fallback_redundant
    (tag : string) (attrs : gmap string string) :
  (exists suffix, buildSemanticCss tag attrs = tag +:+ suffix) /\
  orElse (buildSemanticCss tag attrs) tag = buildSemanticCss tag attrs.
Proof.
  split; [|apply orElse_semanticCss].
  by exists (join (semanticParts attrs useful)).
Qed.

(** ** The tiers of [buildSelectorFromRawNode] *)

Lemma firstTestId_skips (attrs : gmap string string) (names : list string) :
  (forall a, a ∈ names -> forall v, attrs !! a = Some v -> v = "") ->
  firstTestId attrs names = None.
Proof.
  induction names as [|a names IH]; intros Hempty; [reflexivity|].
  cbn [firstTestId].
  rewrite IH by (intros a' Ha'; apply Hempty; by right).
  destruct (attrs !! a) as [v|] eqn:Hv; [|reflexivity].
  rewrite (Hempty a (list_elem_of_here _ _) v Hv). reflexivity.
Qed.

Lemma firstTestId_first (attrs : gmap string string)
    (pre post : list string) (attr val : string) :
  (forall a, a ∈ pre -> forall v, attrs !! a = Some v -> v = "") ->
  attrs !! attr = Some val -> val <> "" ->
  firstTestId attrs (pre ++ attr :: post)%list = Some (attr, val).
Proof.
  intros Hpre Hattr Hval. induction pre as [|a pre IH].
  - cbn [app firstTestId]. rewrite Hattr.
    apply truthy_true in Hval. by rewrite Hval.
  - cbn [app firstTestId].
    rewrite IH by (intros a' Ha'; apply Hpre; by right).
    destruct (attrs !! a) as [v|] eqn:Hv; [|reflexivity].
    rewrite (Hpre a (list_elem_of_here _ _) v Hv). reflexivity.
Qed.

Lemma append_empty_r (s : string) : s +:+ "" = s.
Proof. induction s as [|a s IH]; [reflexivity|]. by rewrite append_cons, IH. Qed.

Lemma buildSemanticCss_no_attributes (tag : string) :
  buildSemanticCss tag ∅ = tag.
Proof. unfold buildSemanticCss. cbn. apply append_empty_r. Qed.

Section TierFacts.

Variable toLowerCase : string -> string.

Local Abbreviation build := (buildSelectorFromRawNode toLowerCase).

(** X6: Among the test-id attributes the first one, in the order [data-testid],
    [data-cy], [data-test], [data-qa], that has a non-empty value decides
    the bundle; every expression but the playwright one embeds the
    attribute selector as it is. *)
Theorem first_test_id_attribute_wins
    (name role tagName : string) (attributes : option (list string))
    (pre post : list string) (attr val : string) :
  TEST_ID_ATTRS = (pre ++ attr :: post)%list ->
  (forall a, a ∈ pre -> forall v, parseAttrs attributes !! a = Some v -> v = "") ->
  parseAttrs attributes !! attr = Some val ->
  val <> "" ->
  let attrSelector := "[" +:+ attr +:+ "=" +:+ dq +:+ val +:+ dq +:+ "]" in
  exists b,
    build name role tagName attributes = Returned b /\
    stability b = high /\ id b = None /\
    testId b = Some attrSelector /\ css b = Some attrSelector /\
    playwright b
    = Some (if String.eqb attr "data-testid"
            then "page.getByTestId('" +:+ escapeStr val +:+ "')"
            else "page.locator('[" +:+ attr +:+ "=" +:+ dq +:+ escapeStr val
                 +:+ dq +:+ "]')") /\
    selenium b = Some ("driver.find_element(By.CSS_SELECTOR, '"
                       +:+ attrSelector +:+ "')") /\
    cypress b = Some ("cy.get('" +:+ attrSelector +:+ "')") /\
    webdriverio b = Some ("$('" +:+ attrSelector +:+ "')").
Proof.
  intros Hsplit Hpre Hattr Hval attrSelector. unfold buildSelectorFromRawNode.
  rewrite Hsplit, (firstTestId_first _ _ _ _ _ Hpre Hattr Hval).
  eexists. split; [reflexivity|]. cbn. repeat split; reflexivity.
Qed.

(** X7: When no test-id attribute has a non-empty value, a non-empty [id] that
    does not match the unstable pattern decides the bundle: the id locator
    is [#id], and only the selenium expression escapes the value. *)
Theorem stable_id_tier
    (name role tagName : string) (attributes : option (list string))
    (idVal : string) :
  (forall a, a ∈ TEST_ID_ATTRS ->
             forall v, parseAttrs attributes !! a = Some v -> v = "") ->
  parseAttrs attributes !! "id" = Some idVal ->
  idVal <> "" ->
  UNSTABLE_ID_RE idVal = false ->
  exists b,
    build name role tagName attributes = Returned b /\
    stability b = high /\ testId b = None /\
    id b = Some ("#" +:+ idVal) /\ css b = Some ("#" +:+ idVal) /\
    aria b = Some (buildAriaSelector role name) /\
    playwright b = Some ("page.locator('#" +:+ idVal +:+ "')") /\
    selenium b = Some ("driver.find_element(By.ID, '" +:+ escapeStr idVal +:+ "')") /\
    cypress b = Some ("cy.get('#" +:+ idVal +:+ "')") /\
    webdriverio b = Some ("$('#" +:+ idVal +:+ "')").
Proof.
  intros Hnone Hid Hne Hstable. unfold buildSelectorFromRawNode.
  rewrite (firstTestId_skips _ _ Hnone), Hid. unfold stableId.
  apply truthy_true in Hne. rewrite Hne, Hstable. cbn [negb andb].
  eexists. split; [reflexivity|]. cbn. repeat split; reflexivity.
Qed.

(** X8: The optional fields tell the tier: the testId and id locators are never
    both present, stability is high exactly when one of them is, and it is
    low exactly when the bundle has no ARIA locator. *)
Theorem bundle_fields_tell_tier
    (name role tagName : string) (attributes : option (list string))
    (b : SuggestedSelectors) :
  build name role tagName attributes = Returned b ->
  (testId b = None \/ id b = None) /\
  (stability b = high <-> is_Some (testId b) \/ is_Some (id b)) /\
  (stability b = low <-> aria b = None).
Proof.
  unfold buildSelectorFromRawNode.
  assert (Hno : forall A : Type, ~ @is_Some A None) by (intros A [x Hx]; discriminate).
  destruct (firstTestId _ _) as [[attr val]|].
  { intros [= <-]. cbn. repeat split; try done; eauto. }
  destruct (stableId _).
  { intros [= <-]. cbn. repeat split; try done; eauto. }
  destruct (truthy name && truthy role).
  - destruct (buildPlaywrightByRole role name); [|discriminate].
    intros [= <-]. cbn. repeat split; try done; eauto.
    intros [H | H]; by apply Hno in H.
  - intros [= <-]. cbn. repeat split; try done; eauto.
    intros [H | H]; by apply Hno in H.
Qed.

(** X9: Without DOM attributes, the case of the callers that could not read
    the element, the bundle never reaches high stability and its CSS
    locator is the lower-cased tag name alone. *)
Theorem bundle_without_attributes
    (name role tagName : string) (b : SuggestedSelectors) :
  build name role tagName None = Returned b ->
  testId b = None /\ id b = None /\ stability b <> high /\
  css b = Some (toLowerCase tagName) /\
  cypress b = Some ("cy.get('" +:+ toLowerCase tagName +:+ "')").
Proof.
  unfold buildSelectorFromRawNode. cbn [parseAttrs].
  change (firstTestId ∅ TEST_ID_ATTRS) with (@None (string * string)).
  change (stableId (∅ !! "id")) with (@None string).
  rewrite orElse_semanticCss, !buildSemanticCss_no_attributes.
  destruct (truthy name && truthy role).
  - destruct (buildPlaywrightByRole role name); [|discriminate].
    intros [= <-]. cbn. repeat split; done.
  - intros [= <-]. cbn. repeat split; done.
Qed.

Lemma firstTestId_none_iff (attrs : gmap string string) (names : list string) :
  firstTestId attrs names = None <->
  forall a, a ∈ names -> forall v, attrs !! a = Some v -> v = "".
Proof.
  split; [|apply firstTestId_skips].
  induction names as [|a names IH]; intros H a' Ha' v Hv.
  - by apply elem_of_nil in Ha'.
  - cbn [firstTestId] in H.
    assert (Hrest : firstTestId attrs names = None /\
                    forall w, attrs !! a = Some w -> w = "").
    { destruct (attrs !! a) as [w|]; [|split; [exact H | discriminate]].
      destruct (truthy w) eqn:Hw; [discriminate|].
      split; [exact H|]. intros ? [= <-]. by apply truthy_false. }
    destruct Hrest as [Hnames Ha].
    apply elem_of_cons in Ha' as [-> | Ha']; [by apply Ha | by apply (IH Hnames a')].
Qed.

Lemma stableId_none_iff (idVal : option string) :
  stableId idVal = None <->
  forall v, idVal = Some v -> v = "" \/ UNSTABLE_ID_RE v = true.
Proof.
  unfold stableId. destruct idVal as [v|]; [|split; [discriminate | done]].
  destruct (truthy v) eqn:Hv; cbn [andb].
  - destruct (UNSTABLE_ID_RE v) eqn:Hre; cbn [negb].
    + split; [intros _ ? [= <-]; by right | done].
    + split; [discriminate|]. intros H.
      destruct (H v eq_refl) as [-> | ?]; [discriminate | congruence].
  - apply truthy_false in Hv as ->. split; [intros _ ? [= <-]; by left | done].
Qed.

(** X10: The builder raises a [TypeError] exactly when no test-id attribute has
    a non-empty value, the [id] is absent, empty or unstable, name and role
    are both non-empty, and the role is the name of a property that
    objects inherit from [Object.prototype]. *)
Theorem buildSelectorFromRawNode_raises_iff
    (name role tagName : string) (attributes : option (list string)) :
  build name role tagName attributes = Thrown <->
  (forall a, a ∈ TEST_ID_ATTRS ->
             forall v, parseAttrs attributes !! a = Some v -> v = "") /\
  (forall v, parseAttrs attributes !! "id" = Some v ->
             v = "" \/ UNSTABLE_ID_RE v = true) /\
  name <> "" /\ role <> "" /\ role ∈ objectPrototypeKeys.
Proof.
  rewrite buildSelectorFromRawNode_thrown, firstTestId_none_iff, stableId_none_iff.
  rewrite andb_true_iff, !truthy_true.
  assert (Hin : inherited role = true <-> role ∈ objectPrototypeKeys).
  { unfold inherited. rewrite existsb_exists. split.
    - intros (k & Hk & ->%String.eqb_eq). by apply list_elem_of_In.
    - intros H. exists role. split; [by apply list_elem_of_In | apply String.eqb_refl]. }
  rewrite Hin. tauto.
Qed.

End TierFacts.

Lemma first_test_id_attribute_wins_witness :
  exists b,
    buildSelectorFromRawNode asciiToLowerCase "Log in" "button" "button"
      (Some ["data-testid"; ""; "data-cy"; "login"; "data-qa"; "other"])
    = Returned b /\
    testId b = Some ("[data-cy=" +:+ dq +:+ "login" +:+ dq +:+ "]") /\
    playwright b = Some ("page.locator('[data-cy=" +:+ dq +:+ "login" +:+ dq +:+ "]')").
Proof.
  destruct (first_test_id_attribute_wins asciiToLowerCase "Log in" "button" "button"
              (Some ["data-testid"; ""; "data-cy"; "login"; "data-qa"; "other"])
              ["data-testid"] ["data-test"; "data-qa"] "data-cy" "login")
    as (b & Hb & _ & _ & Ht & _ & Hp & _).
  - reflexivity.
  - intros a Ha%list_elem_of_singleton v Hv. subst a.
    vm_compute in Hv. congruence.
  - reflexivity.
  - discriminate.
  - exists b. repeat split; assumption.
Defined.

Lemma stable_id_tier_witness :
  exists b,
    buildSelectorFromRawNode asciiToLowerCase "Email" "textbox" "input"
      (Some ["id"; "email-input"; "data-testid"; ""]) = Returned b /\
    id b = Some "#email-input" /\ stability b = high.
Proof.
  destruct (stable_id_tier asciiToLowerCase "Email" "textbox" "input"
              (Some ["id"; "email-input"; "data-testid"; ""]) "email-input")
    as (b & Hb & Hs & _ & Hid & _).
  - intros a Ha v Hv. unfold TEST_ID_ATTRS in Ha.
    repeat (apply elem_of_cons in Ha as [-> | Ha];
            [vm_compute in Hv; congruence|]).
    by apply elem_of_nil in Ha.
  - reflexivity.
  - discriminate.
  - reflexivity.
  - exists b. repeat split; assumption.
Defined.

Lemma bundle_fields_tell_tier_witness :
  exists b,
    buildSelectorFromRawNode asciiToLowerCase "" "" "DIV" None = Returned b /\
    (stability b = low <-> aria b = None).
Proof.
  eexists. split; [reflexivity|].
  apply (bundle_fields_tell_tier asciiToLowerCase "" "" "DIV" None). reflexivity.
Defined.

Lemma bundle_without_attributes_witness :
  exists b,
    buildSelectorFromRawNode asciiToLowerCase "Go" "button" "UNKNOWN" None
    = Returned b /\
    css b = Some "unknown" /\ cypress b = Some "cy.get('unknown')".
Proof.
  eexists. split; [reflexivity|].
  destruct (bundle_without_attributes asciiToLowerCase "Go" "button" "UNKNOWN" _ eq_refl)
    as (_ & _ & _ & Hcss & Hcy).
  split; assumption.
Defined.

(** * Further properties of the tree functions *)

(** ** Counting and searching *)

Lemma countNodes_unfold (t : AXNodeSummary.t) :
  countNodes t
  = match AXNodeSummary.children t with
    | None => 1%nat
    | Some cs => (1 + fold_left (fun sum child => sum + countNodes child) cs 0)%nat
    end.
Proof. by destruct t. Qed.

Lemma findAllNodes_unfold (t : AXNodeSummary.t)
    (predicate : AXNodeSummary.t -> bool) :
  findAllNodes t predicate
  = ((if predicate t then [t] else [])
     ++ match AXNodeSummary.children t with
        | None => []
        | Some cs => flat_map (fun child => findAllNodes child predicate) cs
        end)%list.
Proof. by destruct t. Qed.

Lemma findNode_unfold (t : AXNodeSummary.t)
    (predicate : AXNodeSummary.t -> bool) :
  findNode t predicate
  = if predicate t then Some t
    else match AXNodeSummary.children t with
         | None => None
         | Some cs => firstFound (fun child => findNode child predicate) cs
         end.
Proof. by destruct t. Qed.

Lemma countNodes_allNodes (t : AXNodeSummary.t) :
  countNodes t = length (allNodes t).
Proof.
  induction t as [t IH] using summary_ind.
  rewrite countNodes_unfold, allNodes_unfold.
  destruct (AXNodeSummary.children t) as [cs|]; [|reflexivity].
  specialize (IH cs eq_refl). cbn [length]. f_equal.
  assert (Hacc : forall acc,
             fold_left (fun sum child => sum + countNodes child) cs acc
             = acc + length (flat_map allNodes cs)); [|apply Hacc].
  induction IH as [|c cs Hc _ IHcs]; intros acc; [cbn; lia|].
  cbn [fold_left flat_map]. rewrite IHcs, length_app, Hc. lia.
Qed.

Lemma filter_flat_map {A B : Type} (p : B -> bool) (f : A -> list B) (l : list A) :
  List.filter p (flat_map f l) = flat_map (fun x => List.filter p (f x)) l.
Proof.
  induction l as [|x l IH]; [reflexivity|].
  cbn [flat_map]. by rewrite List.filter_app, IH.
Qed.

Lemma findAllNodes_filter (t : AXNodeSummary.t)
    (predicate : AXNodeSummary.t -> bool) :
  findAllNodes t predicate = List.filter predicate (allNodes t).
Proof.
  induction t as [t IH] using summary_ind.
  rewrite findAllNodes_unfold, allNodes_unfold. cbn [List.filter].
  assert (Hrest :
            match AXNodeSummary.children t with
            | None => []
            | Some cs => flat_map (fun child => findAllNodes child predicate) cs
            end
            = List.filter predicate
                match AXNodeSummary.children t with
                | None => []
                | Some cs => flat_map allNodes cs
                end).
  { destruct (AXNodeSummary.children t) as [cs|]; [|reflexivity].
    specialize (IH cs eq_refl). rewrite filter_flat_map.
    induction IH as [|c cs Hc _ IHcs]; [reflexivity|].
    cbn [flat_map]. by rewrite Hc, IHcs. }
  rewrite Hrest. by destruct (predicate t).
Qed.

Lemma findNode_head (t : AXNodeSummary.t)
    (predicate : AXNodeSummary.t -> bool) :
  findNode t predicate = hd_error (findAllNodes t predicate).
Proof.
  induction t as [t IH] using summary_ind.
  rewrite findNode_unfold, findAllNodes_unfold.
  destruct (predicate t); [reflexivity|]. cbn [app].
  destruct (AXNodeSummary.children t) as [cs|]; [|reflexivity].
  specialize (IH cs eq_refl).
  induction IH as [|c cs Hc _ IHcs]; [reflexivity|].
  cbn [firstFound flat_map]. rewrite Hc, IHcs.
  by destruct (findAllNodes c predicate).
Qed.

(** X11: [countNodes] is the number of nodes that a search accepting every node
    returns. *)
Theorem countNodes_counts_all_nodes (t : AXNodeSummary.t) :
  countNodes t = length (findAllNodes t (fun _ => true)).
Proof. apply countNodes_allNodes. Qed.


(** X13: [findNode] returns the first node that [findAllNodes] returns, and
    [null] exactly when no node of the tree satisfies the predicate. *)
Theorem findNode_first_match (t : AXNodeSummary.t)
    (predicate : AXNodeSummary.t -> bool) :
  findNode t predicate = hd_error (findAllNodes t predicate) /\
  (findNode t predicate = None <->
   forall s, s ∈ allNodes t -> predicate s = false).
Proof.
  split; [apply findNode_head|].
  rewrite findNode_head, findAllNodes_filter. split.
  - intros Hnone s Hs. destruct (predicate s) eqn:Hp; [|reflexivity].
    assert (Hin : In s (List.filter predicate (allNodes t))).
    { apply filter_In. split; [by apply list_elem_of_In | exact Hp]. }
    destruct (List.filter predicate (allNodes t)); [destruct Hin | discriminate].
  - intros Hall.
    destruct (List.filter predicate (allNodes t)) as [|s rest] eqn:Hf; [reflexivity|].
    assert (Hin : In s (List.filter predicate (allNodes t))) by (rewrite Hf; by left).
    apply filter_In in Hin as [Hin Hp].
    rewrite (Hall s (proj2 (list_elem_of_In _ _) Hin)) in Hp. discriminate.
Qed.

(** ** [buildTreeIndex]: the last node with an identifier wins *)

Lemma find_app {A : Type} (p : A -> bool) (l1 l2 : list A) :
  List.find p (l1 ++ l2)%list
  = match List.find p l1 with
    | Some x => Some x
    | None => List.find p l2
    end.
Proof.
  induction l1 as [|x l1 IH]; [reflexivity|].
  cbn [app List.find]. by destruct (p x).
Qed.

Lemma buildTreeIndex_fold_lookup (nodes : list CdpAXNode.t) :
  forall (acc : gmap string CdpAXNode.t) (k : string),
    fold_left (fun index node => <[CdpAXNode.nodeId node := node]> index) nodes acc
      !! k
    = match List.find (fun n => String.eqb (CdpAXNode.nodeId n) k) (rev nodes) with
      | Some n => Some n
      | None => acc !! k
      end.
Proof.
  induction nodes as [|node nodes IH]; intros acc k; [reflexivity|].
  cbn [fold_left rev]. rewrite IH, find_app.
  destruct (List.find _ (rev nodes)); [reflexivity|].
  cbn [List.find]. destruct (String.eqb_spec (CdpAXNode.nodeId node) k) as [<-|Hne].
  - apply lookup_insert_eq.
  - by apply lookup_insert_ne.
Qed.

(** X14: Looking an identifier up in the index gives the last node of the list
    that carries it, and nothing when no node does. *)
Theorem buildTreeIndex_last_wins (nodes : list CdpAXNode.t) (k : string) :
  buildTreeIndex nodes !! k
  = List.find (fun n => String.eqb (CdpAXNode.nodeId n) k) (rev nodes).
Proof.
  unfold buildTreeIndex. rewrite buildTreeIndex_fold_lookup.
  destruct (List.find _ (rev nodes)); [reflexivity | apply lookup_empty].
Qed.

(** ** Depth bounds *)

Lemma list_max_map_le {A : Type} (f g : A -> nat) (l : list A) :
  Forall (fun x => f x <= g x) l ->
  list_max (List.map f l) <= list_max (List.map g l).
Proof.
  induction 1 as [|x l Hx _ IH]; [reflexivity|].
  cbn [List.map].
  change (Nat.max (f x) (list_max (List.map f l))
          <= Nat.max (g x) (list_max (List.map g l))).
  lia.
Qed.

Lemma list_max_map_bound {A : Type} (f : A -> nat) (l : list A) (n : nat) :
  Forall (fun x => f x <= n) l -> list_max (List.map f l) <= n.
Proof.
  induction 1 as [|x l Hx _ IH]; [cbn; lia|].
  cbn [List.map].
  change (Nat.max (f x) (list_max (List.map f l)) <= n).
  lia.
Qed.

Lemma maxExact_positive : (0 < maxExact)%Z.
Proof. reflexivity. Qed.

Lemma pruneToDepth_levels_int (t : AXNodeSummary.t) :
  forall z : Z, levels (pruneToDepth t (Int z)) <= Z.to_nat (Z.max z 1).
Proof.
  induction t as [t IH] using summary_ind. intros z.
  rewrite pruneToDepth_unfold.
  destruct (AXNodeSummary.children t) as [cs|] eqn:Hcs; [|cbn; lia].
  destruct (le (Int z) (Int 1)) eqn:Hle; [cbn; lia|].
  cbn in Hle. apply Z.leb_gt in Hle.
  rewrite levels_unfold, children_withChildren, List.map_map.
  cbn [pred]. rewrite Z.max_l by (pose proof maxExact_positive; lia).
  specialize (IH cs eq_refl).
  assert (Hb : list_max (List.map (fun c => levels (pruneToDepth c (Int (z - 1)))) cs)
               <= Z.to_nat (z - 1)).
  { apply list_max_map_bound. eapply Forall_impl; [exact IH|].
    intros c Hc. cbn beta in Hc. specialize (Hc (z - 1)%Z). lia. }
  lia.
Qed.

Lemma pruneToDepth_levels_le (t : AXNodeSummary.t) :
  forall d, levels (pruneToDepth t d) <= levels t.
Proof.
  induction t as [t IH] using summary_ind. intros d.
  rewrite pruneToDepth_unfold, (levels_unfold t).
  destruct (AXNodeSummary.children t) as [cs|] eqn:Hcs; [|cbn; lia].
  destruct (le d (Int 1)); [cbn; lia|].
  rewrite levels_unfold, children_withChildren, List.map_map.
  apply le_n_S, list_max_map_le.
  eapply Forall_impl; [exact (IH cs eq_refl)|]. intros c Hc. apply Hc.
Qed.

(** X15: A tree pruned with an integer budget has at most that many levels (one
    level for a budget below 1), and pruning never adds a level. *)
Theorem pruneToDepth_at_most_maxDepth_levels
    (t : AXNodeSummary.t) (z : Z) (d : number) :
  levels (pruneToDepth t (Int z)) <= Z.to_nat (Z.max z 1) /\
  levels (pruneToDepth t d) <= levels t.
Proof. split; [apply pruneToDepth_levels_int | apply pruneToDepth_levels_le]. Qed.

(** X16: Pruning twice with the same budget is pruning once. *)
Theorem pruneToDepth_idempotent (t : AXNodeSummary.t) :
  forall d, pruneToDepth (pruneToDepth t d) d = pruneToDepth t d.
Proof.
  induction t as [t IH] using summary_ind. intros d.
  rewrite (pruneToDepth_unfold t).
  destruct (AXNodeSummary.children t) as [cs|] eqn:Hcs; [|reflexivity].
  destruct (le d (Int 1)) eqn:Hle; [reflexivity|].
  rewrite pruneToDepth_unfold, children_withChildren, Hle.
  rewrite withChildren_withChildren, List.map_map. do 2 f_equal.
  specialize (IH cs eq_refl). clear Hcs.
  induction IH as [|c cs Hc _ IHcs]; [reflexivity|].
  cbn [List.map]. by rewrite Hc, IHcs.
Qed.

Lemma pruneToDepth_count_le (t : AXNodeSummary.t) :
  forall d, length (allNodes (pruneToDepth t d)) <= length (allNodes t).
Proof.
  induction t as [t IH] using summary_ind. intros d.
  rewrite pruneToDepth_unfold, (allNodes_unfold t).
  destruct (AXNodeSummary.children t) as [cs|] eqn:Hcs; [|cbn; lia].
  destruct (le d (Int 1)); [cbn; lia|].
  rewrite allNodes_unfold, children_withChildren. cbn [length].
  apply le_n_S. specialize (IH cs eq_refl). clear Hcs.
  induction IH as [|c cs Hc _ IHcs]; [reflexivity|].
  cbn [List.map flat_map]. rewrite !length_app.
  specialize (Hc (pred d)). lia.
Qed.






(** X19: The handler counts the nodes of the assembled tree and returns the
    pruned one: the tree it returns has at most [nodeCount] nodes and, for
    an integer [maxDepth], at most [maxDepth] levels (one level for a
    limit below 1). *)
Theorem fullTree_count_and_depth
    (fuel : nat) (interestingOnly : bool) (maxDepth : number)
    (nodes : list CdpAXNode.t) (tree : AXNodeSummary.t) (nodeCount : nat) :
  fullTree fuel interestingOnly maxDepth nodes = Some (TreeBuilt tree nodeCount) ->
  countNodes tree <= nodeCount /\
  (forall m, maxDepth = Int m -> levels tree <= Z.to_nat (Z.max m 1)).
Proof.
  unfold fullTree. destruct (findRoot _) as [root|]; [|discriminate].
  destruct (assembleTree _ _ _ _ _) as [assembled|]; [|discriminate].
  intros [= <- <-]. split.
  - rewrite !countNodes_allNodes. apply pruneToDepth_count_le.
  - intros m ->. apply pruneToDepth_levels_int.
Qed.

Lemma fullTree_count_and_depth_witness :
  exists tree,
    fullTree 3 true (Int 1)
      [plainNode "1" false None (Some ["2"]); plainNode "2" false (Some "1") None]
    = Some (TreeBuilt tree 2) /\
    countNodes tree = 1 /\ countNodes tree <= 2 /\ levels tree <= 1.
Proof.
  eexists. split; [vm_compute; reflexivity|]. split; [reflexivity|].
  destruct (fullTree_count_and_depth 3 true (Int 1)
              [plainNode "1" false None (Some ["2"]);
               plainNode "2" false (Some "1") None] _ 2 eq_refl) as [Hc Hl].
  split; [exact Hc | exact (Hl 1%Z eq_refl)].
Defined.

(** ** The children of an assembled node follow [childIds] *)

Lemma assembleTree_nodeId (index : gmap string CdpAXNode.t) (fuel : nat)
    (node : CdpAXNode.t) (depth maxDepth : number) (t : AXNodeSummary.t) :
  assembleTree fuel node index depth maxDepth = Some t ->
  AXNodeSummary.nodeId t = CdpAXNode.nodeId node.
Proof.
  intros Ht. apply assembleTree_inv in Ht as [-> | (? & ? & ? & _ & _ & _ & _ & _ & ->)];
    reflexivity.
Qed.

Lemma assembleChildren_ids (index : gmap string CdpAXNode.t)
    (recurse : CdpAXNode.t -> option AXNodeSummary.t) (ids : list string) :
  (forall child s, recurse child = Some s ->
                   AXNodeSummary.nodeId s = CdpAXNode.nodeId child) ->
  (forall k n, index !! k = Some n -> CdpAXNode.nodeId n = k) ->
  forall cs,
    assembleChildren recurse index ids = Some cs ->
    List.map AXNodeSummary.nodeId cs
    = List.filter
        (fun childId => match index !! childId with
                        | Some child => negb (CdpAXNode.ignored child)
                        | None => false
                        end)
        ids.
Proof.
  intros Hrec Hkey. induction ids as [|childId ids IH]; intros cs Hcs.
  - by injection Hcs as <-.
  - cbn [assembleChildren List.filter] in *.
    destruct (index !! childId) as [child|] eqn:Hlook; [|by apply IH].
    destruct (CdpAXNode.ignored child); [by apply IH|]. cbn [negb].
    destruct (recurse child) as [summary|] eqn:Hr; [|discriminate].
    destruct (assembleChildren recurse index ids) as [more|]; [|discriminate].
    injection Hcs as <-. cbn [List.map].
    by rewrite (Hrec _ _ Hr), (Hkey _ _ Hlook), (IH more eq_refl).
Qed.

(** X20: Below the depth limit, the children of an assembled node carry, in the
    order of [childIds], the identifiers that the index resolves to a node
    that is not ignored; dangling identifiers and ignored children leave
    no trace. *)
Theorem assembled_children_follow_childIds
    (nodes : list CdpAXNode.t) (fuel : nat) (node : CdpAXNode.t)
    (depth maxDepth : number) (t : AXNodeSummary.t) (ids : list string) :
  assembleTree fuel node (buildTreeIndex nodes) depth maxDepth = Some t ->
  CdpAXNode.childIds node = Some ids ->
  ge depth maxDepth = false ->
  List.map AXNodeSummary.nodeId (default [] (AXNodeSummary.children t))
  = List.filter
      (fun childId => match buildTreeIndex nodes !! childId with
                      | Some child => negb (CdpAXNode.ignored child)
                      | None => false
                      end)
      ids.
Proof.
  destruct fuel as [|fuel]; [discriminate|]. cbn [assembleTree].
  intros Ht Hids Hge. rewrite Hids, Hge in Ht. cbn [orb] in Ht.
  destruct ids as [|childId ids]; [by injection Ht as <-|].
  cbn [length Nat.eqb] in Ht.
  destruct (assembleChildren _ _ _) as [cs|] eqn:Hcs; [|discriminate].
  apply assembleChildren_ids in Hcs.
  - rewrite <- Hcs. destruct cs; injection Ht as <-; reflexivity.
  - intros child s Hs. by apply assembleTree_nodeId in Hs.
  - intros k n Hn. by apply buildTreeIndex_lookup in Hn as [_ ?].
Qed.

Lemma assembled_children_follow_childIds_witness :
  let root := plainNode "1" false None (Some ["9"; "3"; "2"]) in
  let nodes := [root; plainNode "2" false (Some "1") None;
                plainNode "3" true (Some "1") None] in
  exists t,
    assembleTree 3 root (buildTreeIndex nodes) (Int 0) (Int 5) = Some t /\
    List.map AXNodeSummary.nodeId (default [] (AXNodeSummary.children t)) = ["2"].
Proof.
  intros root nodes. eexists. split; [vm_compute; reflexivity|].
  pose proof (assembled_children_follow_childIds nodes 3 root (Int 0) (Int 5) _
                ["9"; "3"; "2"] eq_refl eq_refl eq_refl) as H.
  vm_compute in H. exact H.
Defined.

(** ** Root selection *)

Lemma find_none_iff {A : Type} (p : A -> bool) (l : list A) :
  List.find p l = None <-> forall x, x ∈ l -> p x = false.
Proof.
  split.
  - intros H x Hx. by apply (find_none p l H), list_elem_of_In.
  - induction l as [|x l IH]; intros H; [reflexivity|]. cbn [List.find].
    rewrite (H x (list_elem_of_here _ _)). apply IH.
    intros y Hy. apply H. by right.
Qed.

(** X21: No root is found exactly when every node of the list names, as its
    parent, a non-empty identifier carried by a node of the list, as in a
    list whose parent links form a cycle. *)
Theorem findRoot_none_iff (filtered : list CdpAXNode.t) :
  findRoot filtered = None <->
  forall n, n ∈ filtered ->
    exists p, CdpAXNode.parentId n = Some p /\ p <> "" /\
              p ∈ List.map CdpAXNode.nodeId filtered.
Proof.
  unfold findRoot. rewrite find_none_iff. split; intros H n Hn.
  - specialize (H n Hn). destruct (CdpAXNode.parentId n) as [p|]; [|discriminate].
    apply orb_false_elim in H as [Hp Hin]. exists p. split; [reflexivity|].
    apply negb_false_iff in Hp, Hin. split; [by apply truthy_true|].
    apply bool_decide_eq_true in Hin. by apply elem_of_list_to_set in Hin.
  - destruct (H n Hn) as (p & -> & Hp & Hin).
    apply truthy_true in Hp. rewrite Hp. cbn [negb orb].
    apply negb_false_iff, bool_decide_eq_true. by apply elem_of_list_to_set.
Qed.

(** Two nodes that name each other as parent: no root, and the handler
    reports it instead of assembling. *)
Example findRoot_cycle :
  fullTree 5 true (Int 10)
    [plainNode "1" false (Some "2") (Some ["2"]);
     plainNode "2" false (Some "1") (Some ["1"])]
  = Some NoRootFound.
Proof. vm_compute. reflexivity. Qed.

(** * Properties of the selection of interactive elements *)

Import GetInteractiveElements.

Lemma filterRaising_returned {A : Type} (callback : A -> outcome bool)
    (l kept : list A) :
  filterRaising callback l = Returned kept ->
  kept = List.filter (fun x => match callback x with
                               | Returned keep => keep
                               | Thrown => false
                               end) l.
Proof.
  revert kept. induction l as [|x l IH]; intros kept H.
  - by injection H as <-.
  - cbn [filterRaising List.filter] in *.
    destruct (callback x) as [keep|]; [|discriminate].
    destruct (filterRaising callback l) as [kept'|]; [|discriminate].
    injection H as <-. rewrite (IH kept' eq_refl). by destruct keep.
Qed.


Lemma filter_sublist {A : Type} (p : A -> bool) (l : list A) :
  List.filter p l `sublist_of` l.
Proof.
  induction l as [|x l IH]; [constructor|]. cbn [List.filter].
  destruct (p x); by constructor.
Qed.

Section SelectionFacts.

Variable toLowerCase : string -> string.

(** X22: Every selected node is a node of the input that is not ignored, whose
    role, a string or absent, is a target role once lower-cased, and that
    has no [disabled] property equal to [true] unless disabled elements
    were asked for; the selection keeps the order of the input. *)
Theorem selectNodes_sound
    (roles : option (list string)) (includeDisabled : bool)
    (maxElements : number) (allNodes interactiveNodes limited : list CdpAXNode.t) :
  selectNodes toLowerCase roles includeDisabled maxElements allNodes
  = Returned (interactiveNodes, limited) ->
  interactiveNodes `sublist_of` allNodes /\
  forall node, node ∈ interactiveNodes ->
    CdpAXNode.ignored node = false /\
    (exists role,
        (AxTree.payload (CdpAXNode.role node) = Some (JStr role) \/
         role = "" /\ (AxTree.payload (CdpAXNode.role node) = None \/
                       AxTree.payload (CdpAXNode.role node) = Some JNull)) /\
        has (targetRoles toLowerCase roles) (toLowerCase role) = true) /\
    (includeDisabled = false ->
     disabledIsTrue (default [] (CdpAXNode.properties node)) = false).
Proof.
  unfold selectNodes.
  destruct (filterRaising _ allNodes) as [kept|] eqn:Hf; [|discriminate].
  intros [= <- _]. apply filterRaising_returned in Hf as ->.
  split; [apply filter_sublist|].
  intros node [_ Hkeep]%list_elem_of_In%filter_In.
  unfold isInteractive in Hkeep.
  destruct (CdpAXNode.ignored node); [discriminate|]. split; [reflexivity|].
  assert (Hrole : forall role,
            (if negb (has (targetRoles toLowerCase roles) (toLowerCase role))
             then false
             else if negb includeDisabled
                     && disabledIsTrue (default [] (CdpAXNode.properties node))
                  then false else true) = true ->
            has (targetRoles toLowerCase roles) (toLowerCase role) = true /\
            (includeDisabled = false ->
             disabledIsTrue (default [] (CdpAXNode.properties node)) = false)).
  { intros role H.
    destruct (has (targetRoles toLowerCase roles) (toLowerCase role));
      [|discriminate]. split; [reflexivity|]. intros ->. cbn in H.
    by destruct (disabledIsTrue _). }
  destruct (AxTree.payload (CdpAXNode.role node)) as [[|b|z|role]|];
    try discriminate.
  - destruct (negb _) eqn:E1 in Hkeep; [discriminate|].
    destruct (Hrole "") as [H1 H2].
    { rewrite E1. by destruct (negb includeDisabled && _). }
    split; [|exact H2]. exists "". split; [right; auto | exact H1].
  - destruct (Hrole role) as [H1 H2].
    { destruct (negb (has _ _)); [discriminate|].
      by destruct (negb includeDisabled && _). }
    split; [|exact H2]. exists role. split; [by left | exact H1].
  - destruct (Hrole "") as [H1 H2].
    { destruct (negb (has _ _)); [discriminate|].
      by destruct (negb includeDisabled && _). }
    split; [|exact H2]. exists "". split; [right; auto | exact H1].
Qed.

(** X23: The returned elements are the first [maxElements] selected nodes: a
    prefix of the selection, of length the smaller of the two for a
    non-negative integer limit. *)
Theorem selectNodes_limited
    (roles : option (list string)) (includeDisabled : bool)
    (maxElements : number) (allNodes interactiveNodes limited : list CdpAXNode.t) :
  selectNodes toLowerCase roles includeDisabled maxElements allNodes
  = Returned (interactiveNodes, limited) ->
  limited `prefix_of` interactiveNodes /\
  (forall z, maxElements = Int z -> (0 <= z)%Z ->
             length limited = Nat.min (Z.to_nat z) (length interactiveNodes)).
Proof.
  unfold selectNodes.
  destruct (filterRaising _ allNodes) as [kept|]; [|discriminate].
  intros [= <- <-]. split.
  - unfold slice0. destruct maxElements as [z| | |].
    + destruct (0 <=? z)%Z; apply prefix_take.
    + reflexivity.
    + apply prefix_nil.
    + apply prefix_nil.
  - intros z -> Hz. cbn [slice0]. apply Z.leb_le in Hz. rewrite Hz.
    apply length_take.
Qed.


(** X25: An empty [roles] array does not fall back to the default roles: it
    selects no node at all. *)
Theorem selectNodes_empty_roles
    (includeDisabled : bool) (maxElements : number)
    (allNodes interactiveNodes limited : list CdpAXNode.t) :
  selectNodes toLowerCase (Some []) includeDisabled maxElements allNodes
  = Returned (interactiveNodes, limited) ->
  interactiveNodes = [] /\ limited = [].
Proof.
  unfold selectNodes.
  destruct (filterRaising _ allNodes) as [kept|] eqn:Hf; [|discriminate].
  intros [= <- <-]. apply filterRaising_returned in Hf.
  assert (Hkept : kept = []).
  { rewrite Hf. clear Hf. induction allNodes as [|node l IH]; [reflexivity|].
    cbn [List.filter]. rewrite IH. unfold isInteractive.
    destruct (CdpAXNode.ignored node); [reflexivity|].
    by destruct (AxTree.payload (CdpAXNode.role node)) as [[|b|z|role]|]. }
  rewrite Hkept. split; [reflexivity|].
  unfold slice0. destruct maxElements as [z| | |]; try reflexivity.
  destruct (0 <=? z)%Z; apply take_nil.
Qed.

End SelectionFacts.

Lemma selectNodes_sound_witness :
  let nodes := [roleNode "1" false (JStr "Button") None;
                roleNode "2" true (JStr "link") None;
                roleNode "3" false (JStr "button") (Some (JBool true));
                roleNode "4" false (JStr "heading") None;
                roleNode "5" false (JStr "LINK") (Some (JBool false))] in
  exists interactiveNodes limited,
    selectNodes asciiToLowerCase None false (Int 100) nodes
    = Returned (interactiveNodes, limited) /\
    List.map CdpAXNode.nodeId interactiveNodes = ["1"; "5"] /\
    interactiveNodes `sublist_of` nodes.
Proof.
  intros nodes. do 2 eexists. split; [vm_compute; reflexivity|].
  split; [reflexivity|].
  apply (selectNodes_sound asciiToLowerCase None false (Int 100) nodes _ _ eq_refl).
Defined.

Lemma selectNodes_limited_witness :
  let nodes := [roleNode "1" false (JStr "button") None;
                roleNode "2" false (JStr "link") None;
                roleNode "3" false (JStr "tab") None] in
  exists interactiveNodes limited,
    selectNodes asciiToLowerCase None false (Int 2) nodes
    = Returned (interactiveNodes, limited) /\
    List.map CdpAXNode.nodeId limited = ["1"; "2"] /\
    length limited = Nat.min (Z.to_nat 2) (length interactiveNodes).
Proof.
  intros nodes. do 2 eexists. split; [vm_compute; reflexivity|].
  split; [reflexivity|].
  destruct (selectNodes_limited asciiToLowerCase None false (Int 2) nodes _ _ eq_refl)
    as [_ Hlen].
  apply (Hlen 2%Z); [reflexivity | lia].
Defined.

Lemma selectNodes_empty_roles_witness :
  exists interactiveNodes limited,
    selectNodes asciiToLowerCase (Some []) false (Int 100)
      [roleNode "1" false (JStr "button") None]
    = Returned (interactiveNodes, limited) /\
    interactiveNodes = [] /\ limited = [].
Proof.
  do 2 eexists. split; [vm_compute; reflexivity|].
  apply (selectNodes_empty_roles asciiToLowerCase false (Int 100)
           [roleNode "1" false (JStr "button") None] _ _ eq_refl).
Defined.

(** A numeric role payload on a node that is not ignored makes the
    selection raise. *)
Example selectNodes_numeric_role :
  selectNodes asciiToLowerCase None false (Int 100)
    [roleNode "1" false (JStr "button") None; roleNode "2" false (JNum 7) None]
  = Thrown.
Proof. reflexivity. Qed.

(** * Properties of the browser manager *)

Import BrowserManager.

(** X26: A call to [connect] either succeeds, and the manager then holds the
    last page of the browser under the URL it was given, or raises, and the
    manager is then disconnected, whether or not it was connected before
    the call. *)
Theorem connect_succeeds_or_disconnects
    (url : string) (now : Z) (answer : connectAnswer)
    (state : option BrowserState) :
  match connect url now answer state with
  | (state', Ok _) =>
      exists b pages openSession st,
        answer = Connects b (Ok pages) openSession /\
        state' = Some st /\ last pages = Some (page st) /\
        browser st = b /\ debugUrl st = url /\
        openSession (page st) = SessionOpens (cdpSession st) None
  | (state', Raised _) =>
      isConnected state' = false /\
      requireConnection state' = Raised notConnectedMessage
  end.
Proof.
  unfold connect.
  assert (Hnone : match state with
                  | Some _ => disconnect state
                  | None => state
                  end = None) by (by destruct state).
  rewrite Hnone.
  destruct answer as [message | b [pages | message] openSession]; [done | | done].
  destruct (last pages) as [p|] eqn:Hlast; [|done].
  destruct (openSession p) as [message | session [message|]] eqn:Hopen; try done.
  exists b, pages, openSession. eexists. repeat split; try reflexivity; assumption.
Qed.

(** A connected manager that fails to connect to a browser without tabs. *)
Example connect_without_pages_disconnects :
  let connected := Some {| browser := 1; page := 7; cdpSession := 3;
                           debugUrl := "http://localhost:9222"; connectedAt := 0 |} in
  connect "http://localhost:9333" 5
    (Connects 2 (Ok []) (fun _ => SessionOpens 4 None)) connected
  = (None, Raised "No pages found in the connected browser. Open a tab first.").
Proof. reflexivity. Qed.
